(** * Flowlytix subscription backend: licence and subscription validation engine

    A shallow embedding of the subscription aggregate
    ([app/domain/entities/subscription.py]), the security helpers
    ([app/core/security.py]), the SQLAlchemy repositories
    ([app/infrastructure/database/repositories/subscription_repository.py]),
    the subscription service
    ([app/domain/services/subscription_service.py]) and the licence routes
    ([app/api/routes/subscription.py]), followed by the properties of the
    specification stated over them and by further properties of the
    modelled code.

    Conventions of the embedding.
    - A timezone-aware [datetime] is the integer number of microseconds since
      the epoch; a [timedelta] is a number of microseconds.  Python integers
      are unbounded, hence [Z].  The ranges of [datetime] (years 1..9999) and
      of [timedelta] are those of [datetime_add] and [timedelta_checked],
      through which [is_active_checked], [extend_expiry] and
      [get_expiring_soon] do their date arithmetic and raise [OverflowError]
      as Python does; the comparisons [is_active], [is_expired] and
      [is_in_grace_period] give the answers of the methods for arithmetic
      inside these ranges.
    - A text is the sequence of its characters, a character a code point
      below 256.
    - Every call of [datetime.now(timezone.utc)] inside one operation reads the
      clock value [now] passed to the operation.
    - A raised exception is the [Raise] branch of [result]; objects that the
      Python code mutates in place are returned in their new state.
    - [dict] values are finite maps; the free-form [metadata] dictionaries and
      the floating-point [price] carry no behaviour and are left out of the
      records. *)

From Stdlib Require Import ZArith Lia List Ascii String Bool DecimalString Sorted.
From stdpp Require Import base option list gmap strings.

Import ListNotations.

Local Open Scope string_scope.
Local Open Scope Z_scope.

(** ** Time *)

Definition datetime : Type := Z.
Definition timedelta : Type := Z.

Definition microseconds_per_day : Z := 86400 * 1000000.

(** [timedelta(days=n)] *)
Definition timedelta_days (n : Z) : timedelta := n * microseconds_per_day.

(** [delta.days]: Python normalises a timedelta to whole days rounded down. *)
Definition timedelta_get_days (d : timedelta) : Z := d / microseconds_per_day.

(** The text produced by [datetime.isoformat()].  The calendar rendering is not
    needed: a string is either the ISO text of an instant or some other text. *)
Inductive iso_text : Type :=
| IsoOf (t : datetime)
| NotIso (s : string).

Definition isoformat (t : datetime) : iso_text := IsoOf t.

(** ** Results and exceptions ([app/core/exceptions.py]) *)

Module Exn.

Inductive kind : Type :=
| LicenseKeyInvalidException
| SubscriptionExpiredException
| DeviceLimitExceededException
| DatabaseException
| TokenException
| ValueError
| KeyError
| SQLAlchemyError
| OverflowError
| AttributeError.

Inductive detail : Type :=
| DStr (s : string)
| DInt (z : Z)
| DIso (t : iso_text).

(** [BaseSubscriptionException]: message, error code and a details dict. *)
Record t : Type := mk {
  cls : kind;
  message : string;
  error_code : string;
  details : gmap string detail
}.

Definition truthy_str (s : string) : bool :=
  match s with EmptyString => false | _ => true end.

Definition SubscriptionExpired
    (subscription_id : option string) (expired_at : option iso_text) : t :=
  let details := (∅ : gmap string detail) in
  let details :=
    match subscription_id with
    | Some s => if truthy_str s then <["subscription_id" := DStr s]> details else details
    | None => details
    end in
  let details :=
    match expired_at with
    | Some (NotIso EmptyString) => details
    | Some e => <["expired_at" := DIso e]> details
    | None => details
    end in
  mk SubscriptionExpiredException "Subscription has expired"
     "SUBSCRIPTION_EXPIRED" details.

Definition DeviceLimitExceeded
    (current_devices max_devices : option Z) : t :=
  let details := (∅ : gmap string detail) in
  let details :=
    match current_devices with
    | Some n => <["current_devices" := DInt n]> details
    | None => details
    end in
  let details :=
    match max_devices with
    | Some n => <["max_devices" := DInt n]> details
    | None => details
    end in
  mk DeviceLimitExceededException "Device limit exceeded"
     "DEVICE_LIMIT_EXCEEDED" details.

Definition LicenseKeyInvalid (reason : string) : t :=
  mk LicenseKeyInvalidException ("License key is invalid: " +:+ reason)
     "LICENSE_KEY_INVALID" {[ "reason" := DStr reason ]}.

Definition Database (message : string) (operation : option string) : t :=
  let details := (∅ : gmap string detail) in
  let details :=
    match operation with
    | Some s => if truthy_str s then <["operation" := DStr s]> details else details
    | None => details
    end in
  mk DatabaseException message "DATABASE_ERROR" details.

(** [TokenException] of [security.py] is a plain [Exception] subclass. *)
Definition Token (message : string) : t :=
  mk TokenException message "" ∅.

(** The built-in [ValueError] and [KeyError]. *)
Definition Value (message : string) : t :=
  mk ValueError message "" ∅.

Definition Key (key : string) : t :=
  mk KeyError key "" ∅.

(** An error raised by the SQLAlchemy session. *)
Definition SQLAlchemy (message : string) : t :=
  mk SQLAlchemyError message "" ∅.

(** The built-in [OverflowError] and [AttributeError]. *)
Definition Overflow (message : string) : t :=
  mk OverflowError message "" ∅.

Definition Attribute (message : string) : t :=
  mk AttributeError message "" ∅.

End Exn.

Inductive result (A : Type) : Type :=
| Ok (a : A)
| Raise (e : Exn.t).

Arguments Ok {A} a.
Arguments Raise {A} e.

(** [str(n)] for an integer. *)
Definition str_of_int (n : Z) : string :=
  DecimalString.NilZero.string_of_int (Z.to_int n).

(** ** Date arithmetic within the ranges of [datetime] and [timedelta] *)

(** [datetime.min] (0001-01-01T00:00:00) and [datetime.max]
    (9999-12-31T23:59:59.999999), in microseconds since the epoch. *)
Definition datetime_min : datetime := -62135596800 * 1000000.
Definition datetime_max : datetime := 253402300800 * 1000000 - 1.

Definition timedelta_max_days : Z := 999999999.

(** [timedelta(days=n)]: refused beyond 999999999 days. *)
Definition timedelta_checked (n : Z) : result timedelta :=
  if Z.abs n >? timedelta_max_days then
    Raise (Exn.Overflow
             ("days=" +:+ str_of_int n +:+ "; must have magnitude <= 999999999"))
  else Ok (timedelta_days n).

(** [t + d] for a datetime and a timedelta: refused when the result is not a
    datetime. *)
Definition datetime_add (t : datetime) (d : timedelta) : result datetime :=
  let r := t + d in
  if (r <? datetime_min) || (r >? datetime_max) then
    Raise (Exn.Overflow "date value out of range")
  else Ok r.

(** ** Enumerations *)

Inductive SubscriptionStatus : Type :=
| ACTIVE | EXPIRED | SUSPENDED | CANCELLED | PENDING.

Inductive SubscriptionTier : Type :=
| BASIC | PROFESSIONAL | ENTERPRISE | TRIAL.

Definition status_value (s : SubscriptionStatus) : string :=
  match s with
  | ACTIVE => "active"
  | EXPIRED => "expired"
  | SUSPENDED => "suspended"
  | CANCELLED => "cancelled"
  | PENDING => "pending"
  end.

Definition tier_value (t : SubscriptionTier) : string :=
  match t with
  | BASIC => "basic"
  | PROFESSIONAL => "professional"
  | ENTERPRISE => "enterprise"
  | TRIAL => "trial"
  end.

Definition status_eqb (a b : SubscriptionStatus) : bool :=
  match a, b with
  | ACTIVE, ACTIVE | EXPIRED, EXPIRED | SUSPENDED, SUSPENDED
  | CANCELLED, CANCELLED | PENDING, PENDING => true
  | _, _ => false
  end.

(** ** Identifiers *)

(** A [UUID] is its 128-bit integer value. *)
Definition UUID : Type := Z.

Definition hex_digit (n : Z) : ascii :=
  nth (Z.to_nat n) (list_ascii_of_string "0123456789abcdef") "0"%char.

Fixpoint hex_be (k : nat) (v : Z) : list ascii :=
  match k with
  | O => []
  | S k' => hex_be k' (v / 16) ++ [hex_digit (v mod 16)]
  end.

(** [str(uuid)]: 32 hexadecimal digits grouped 8-4-4-4-12. *)
Definition uuid_str (u : UUID) : string :=
  let h := hex_be 32 u in
  let dash := ["-"%char] in
  string_of_list_ascii
    (take 8 h ++ dash ++ take 4 (drop 8 h) ++ dash ++ take 4 (drop 12 h)
       ++ dash ++ take 4 (drop 16 h) ++ dash ++ drop 20 h).

(** ** Feature sets *)

Inductive feature_value : Type :=
| FBool (b : bool)
| FInt (z : Z).

Module FeatureSet.

Definition tier_map
    (max_customers max_products : Z)
    (analytics multi_location api_access priority_support : bool)
  : gmap string feature_value :=
  <["max_customers" := FInt max_customers]>
    (<["max_products" := FInt max_products]>
       (<["analytics" := FBool analytics]>
          (<["multi_location" := FBool multi_location]>
             (<["api_access" := FBool api_access]>
                (<["priority_support" := FBool priority_support]> ∅))))).

Definition TIER_FEATURES (tier : SubscriptionTier) : gmap string feature_value :=
  match tier with
  | BASIC => tier_map 100 500 false false false false
  | PROFESSIONAL => tier_map 1000 5000 true true true false
  | ENTERPRISE => tier_map (-1) (-1) true true true true
  | TRIAL => tier_map 10 50 false false false false
  end.

Record t : Type := mk {
  tier : SubscriptionTier;
  features : gmap string feature_value
}.

(** [__init__]: tier defaults, then [features.update(custom_features)]. *)
Definition init (tier : SubscriptionTier)
    (custom_features : option (gmap string feature_value)) : t :=
  let base := TIER_FEATURES tier in
  match custom_features with
  | Some custom => mk tier (custom ∪ base)
  | None => mk tier base
  end.

(** [has_feature]: [self.features.get(feature_name, False)]; the stored value
    is returned as it is. *)
Definition has_feature (fs : t) (feature_name : string) : feature_value :=
  match features fs !! feature_name with
  | Some v => v
  | None => FBool false
  end.

(** [get_limit]: [self.features.get(limit_name, 0)]. *)
Definition get_limit (fs : t) (limit_name : string) : feature_value :=
  match features fs !! limit_name with
  | Some v => v
  | None => FInt 0
  end.

End FeatureSet.

(** ** Devices *)

Module Device.

Record t : Type := mk {
  id : UUID;
  subscription_id : UUID;
  device_id : string;
  device_name : option string;
  device_type : option string;
  fingerprint : option string;
  os_name : option string;
  os_version : option string;
  app_version : option string;
  is_active : bool;
  last_seen_at : option datetime;
  created_at : datetime;
  updated_at : datetime
}.

Definition set_is_active (b : bool) (now : datetime) (d : t) : t :=
  mk (id d) (subscription_id d) (device_id d) (device_name d) (device_type d)
     (fingerprint d) (os_name d) (os_version d) (app_version d)
     b (last_seen_at d) (created_at d) now.

Definition activate (now : datetime) (d : t) : t := set_is_active true now d.

Definition deactivate (now : datetime) (d : t) : t := set_is_active false now d.

Definition update_last_seen (now : datetime) (d : t) : t :=
  mk (id d) (subscription_id d) (device_id d) (device_name d) (device_type d)
     (fingerprint d) (os_name d) (os_version d) (app_version d)
     (is_active d) (Some now) (created_at d) now.

Definition set_subscription_id (sid : UUID) (d : t) : t :=
  mk (id d) sid (device_id d) (device_name d) (device_type d)
     (fingerprint d) (os_name d) (os_version d) (app_version d)
     (is_active d) (last_seen_at d) (created_at d) (updated_at d).

Definition set_updated_at (now : datetime) (d : t) : t :=
  mk (id d) (subscription_id d) (device_id d) (device_name d) (device_type d)
     (fingerprint d) (os_name d) (os_version d) (app_version d)
     (is_active d) (last_seen_at d) (created_at d) now.

End Device.

(** ** The subscription aggregate *)

(** The dictionary returned by [Subscription.validate_for_activation].  The
    ["device"] entry refers to an object of [self.devices]; it is recorded as
    the position of that object in the list together with its state, so that
    later mutations through the reference are mutations of the list element. *)
Record ActivationCheck : Type := mkActivationCheck {
  check_valid : bool;
  check_action : string;
  check_device : option (nat * Device.t);
  check_message : string
}.

(** The dictionary built by [Subscription.to_token_payload]. *)
Inductive expires_field : Type :=
| ExpDatetime (t : datetime)
| ExpStr (s : iso_text).

Record TokenData : Type := mkTokenData {
  td_id : string;
  td_customer_id : string;
  td_license_key : string;
  td_tier : string;
  td_features : gmap string feature_value;
  td_device_id : string;
  td_expires_at : option expires_field;
  td_grace_period_days : option Z;
  td_status : string
}.

Module Subscription.

Record t : Type := mk {
  id : UUID;
  customer_id : UUID;
  license_key : string;
  tier : SubscriptionTier;
  status : SubscriptionStatus;
  max_devices : Z;
  starts_at : datetime;
  expires_at : option datetime;
  grace_period_days : Z;
  currency : string;
  auto_renew : bool;
  renewal_period_days : option Z;
  created_at : datetime;
  updated_at : datetime;
  devices : list Device.t;
  feature_set : FeatureSet.t
}.

Definition with_status (st : SubscriptionStatus) (s : t) : t :=
  mk (id s) (customer_id s) (license_key s) (tier s) st (max_devices s)
     (starts_at s) (expires_at s) (grace_period_days s) (currency s)
     (auto_renew s) (renewal_period_days s) (created_at s) (updated_at s)
     (devices s) (feature_set s).

Definition with_devices (ds : list Device.t) (s : t) : t :=
  mk (id s) (customer_id s) (license_key s) (tier s) (status s) (max_devices s)
     (starts_at s) (expires_at s) (grace_period_days s) (currency s)
     (auto_renew s) (renewal_period_days s) (created_at s) (updated_at s)
     ds (feature_set s).

Definition with_updated_at (now : datetime) (s : t) : t :=
  mk (id s) (customer_id s) (license_key s) (tier s) (status s) (max_devices s)
     (starts_at s) (expires_at s) (grace_period_days s) (currency s)
     (auto_renew s) (renewal_period_days s) (created_at s) now
     (devices s) (feature_set s).

(** [is_active]: the usability predicate of the aggregate, as a comparison
    of instants. *)
Definition is_active (s : t) (now : datetime) : bool :=
  if negb (status_eqb (status s) ACTIVE) then false
  else if now <? starts_at s then false
  else
    match expires_at s with
    | Some e =>
        let grace_end := e + timedelta_days (grace_period_days s) in
        if now >? grace_end then false else true
    | None => true
    end.

(** [is_active] as the method runs: [timedelta(days=...)] and the addition to
    [expires_at] raise [OverflowError] outside the ranges of [timedelta] and
    [datetime]. *)
Definition is_active_checked (s : t) (now : datetime) : result bool :=
  if negb (status_eqb (status s) ACTIVE) then Ok false
  else if now <? starts_at s then Ok false
  else
    match expires_at s with
    | Some e =>
        match timedelta_checked (grace_period_days s) with
        | Raise x => Raise x
        | Ok grace =>
            match datetime_add e grace with
            | Raise x => Raise x
            | Ok grace_end => if now >? grace_end then Ok false else Ok true
            end
        end
    | None => Ok true
    end.

Definition is_expired (s : t) (now : datetime) : bool :=
  match expires_at s with
  | None => false
  | Some e =>
      let grace_end := e + timedelta_days (grace_period_days s) in
      now >? grace_end
  end.

Definition is_in_grace_period (s : t) (now : datetime) : bool :=
  match expires_at s with
  | None => false
  | Some e =>
      (e <? now) && (now <=? e + timedelta_days (grace_period_days s))
  end.

Definition days_until_expiry (s : t) (now : datetime) : option Z :=
  match expires_at s with
  | None => None
  | Some e =>
      let delta := e - now in
      Some (Z.max 0 (timedelta_get_days delta))
  end.

(** [[d for d in self.devices if d.is_active]] *)
Definition active_devices (s : t) : list Device.t :=
  List.filter Device.is_active (devices s).

Definition can_add_device (s : t) : bool :=
  Z.of_nat (length (active_devices s)) <? max_devices s.

(** [add_device]: the device object is rebound to this subscription and
    appended; both the aggregate and the device object are returned. *)
Definition add_device (s : t) (device : Device.t) (now : datetime)
  : result (t * Device.t) :=
  if negb (can_add_device s) then
    let active_count := Z.of_nat (length (active_devices s)) in
    Raise (Exn.DeviceLimitExceeded (Some active_count) (Some (max_devices s)))
  else
    let device := Device.set_subscription_id (id s) device in
    Ok (with_updated_at now (with_devices (devices s ++ [device]) s), device).

(** The [for] loop shared by [get_device] and [remove_device]: the first
    device of the list with the given client id, with its position. *)
Fixpoint lookup_device (ds : list Device.t) (device_id : string)
  : option (nat * Device.t) :=
  match ds with
  | [] => None
  | d :: rest =>
      if String.eqb (Device.device_id d) device_id then Some (O, d)
      else
        match lookup_device rest device_id with
        | Some (i, x) => Some (S i, x)
        | None => None
        end
  end.

Definition remove_device (s : t) (device_id : string) (now : datetime)
  : bool * t :=
  match lookup_device (devices s) device_id with
  | Some (i, device) =>
      (true,
       with_updated_at now
         (with_devices (<[i := Device.deactivate now device]> (devices s)) s))
  | None => (false, s)
  end.

Definition get_device (s : t) (device_id : string) : option Device.t :=
  match lookup_device (devices s) device_id with
  | Some (_, device) => Some device
  | None => None
  end.

Definition activate (s : t) (now : datetime) : t :=
  with_updated_at now (with_status ACTIVE s).

Definition suspend (s : t) (now : datetime) : t :=
  with_updated_at now (with_status SUSPENDED s).

Definition cancel (s : t) (now : datetime) : t :=
  with_updated_at now
    (with_devices (List.map (Device.deactivate now) (devices s))
       (with_status CANCELLED s)).

Definition resume (s : t) (now : datetime) : t :=
  with_updated_at now
    (with_devices
       (List.map
          (fun d => if negb (Device.is_active d) then Device.activate now d else d)
          (devices s))
       (with_status ACTIVE s)).

Definition validate_for_activation (s : t) (device_id : string) (now : datetime)
  : result (ActivationCheck * t) :=
  if is_expired s now then
    Raise (Exn.SubscriptionExpired
             (Some (uuid_str (id s)))
             (match expires_at s with
              | Some e => Some (isoformat e)
              | None => None
              end))
  else
    match lookup_device (devices s) device_id with
    | Some (i, existing_device) =>
        if Device.is_active existing_device then
          Ok (mkActivationCheck true "already_active" (Some (i, existing_device))
                "Device is already activated", s)
        else
          let existing_device := Device.activate now existing_device in
          Ok (mkActivationCheck true "reactivated" (Some (i, existing_device))
                "Device reactivated successfully",
              with_devices (<[i := existing_device]> (devices s)) s)
    | None =>
        if negb (can_add_device s) then
          let active_count := Z.of_nat (length (active_devices s)) in
          Raise (Exn.DeviceLimitExceeded (Some active_count) (Some (max_devices s)))
        else
          Ok (mkActivationCheck true "can_activate" None
                "Device can be activated", s)
    end.

Definition to_token_payload (s : t) (device_id : string) : TokenData :=
  mkTokenData
    (uuid_str (id s))
    (uuid_str (customer_id s))
    (license_key s)
    (tier_value (tier s))
    (FeatureSet.features (feature_set s))
    device_id
    (match expires_at s with
     | Some e => Some (ExpStr (isoformat e))
     | None => None
     end)
    (Some (grace_period_days s))
    (status_value (status s)).

Definition with_expires_at (e : option datetime) (s : t) : t :=
  mk (id s) (customer_id s) (license_key s) (tier s) (status s) (max_devices s)
     (starts_at s) e (grace_period_days s) (currency s)
     (auto_renew s) (renewal_period_days s) (created_at s) (updated_at s)
     (devices s) (feature_set s).

(** [extend_expiry]: the new expiry is computed first; when
    [timedelta(days=days)] or the addition raises [OverflowError] nothing has
    been assigned. *)
Definition extend_expiry (s : t) (days : Z) (now : datetime) : result t :=
  let new_expiry :=
    match expires_at s with
    | Some e =>
        match timedelta_checked days with
        | Raise x => Raise x
        | Ok delta => datetime_add e delta
        end
    | None =>
        match timedelta_checked days with
        | Raise x => Raise x
        | Ok delta => datetime_add now delta
        end
    end in
  match new_expiry with
  | Raise x => Raise x
  | Ok e => Ok (with_updated_at now (with_expires_at (Some e) s))
  end.

Definition update_tier (s : t) (new_tier : SubscriptionTier)
    (custom_features : option (gmap string feature_value)) (now : datetime) : t :=
  mk (id s) (customer_id s) (license_key s) new_tier (status s) (max_devices s)
     (starts_at s) (expires_at s) (grace_period_days s) (currency s)
     (auto_renew s) (renewal_period_days s) (created_at s) now
     (devices s) (FeatureSet.init new_tier custom_features).

End Subscription.

(** ** Settings ([app/core/config.py]) *)

Record Settings : Type := mkSettings {
  default_grace_period_days : Z;
  license_key_length : Z
}.

(** The field defaults of [Settings]. *)
Definition default_settings : Settings := mkSettings 7 32.

(** ** Random source

    [secrets] reads the operating system's random bytes.  The source is a
    stream of integers; a read of [n] bytes takes the next [n] elements, each
    reduced to a byte, and leaves the rest of the stream. *)

Definition entropy : Type := nat -> Z.

Definition urandom (n : nat) (e : entropy) : list Z * entropy :=
  (List.map (fun i => e i mod 256) (seq 0 n), fun i => e (n + i)%nat).

(** ** Text helpers (ASCII) *)

Definition ascii_code (c : ascii) : N := N_of_ascii c.

Definition is_digit (c : ascii) : bool :=
  ((48 <=? ascii_code c) && (ascii_code c <=? 57))%N.

Definition is_upper (c : ascii) : bool :=
  ((65 <=? ascii_code c) && (ascii_code c <=? 90))%N.

Definition is_lower (c : ascii) : bool :=
  ((97 <=? ascii_code c) && (ascii_code c <=? 122))%N.

(** The ASCII letters and digits. *)
Definition ascii_alnum (c : ascii) : bool :=
  is_digit c || is_upper c || is_lower c.

(** [c.isascii()] *)
Definition is_ascii (c : ascii) : bool := (ascii_code c <? 128)%N.

(** [str.isalnum] on one character: the ASCII letters and digits and, of the
    code points 128..255, the letters (U+00AA, U+00B5, U+00BA, U+00C0..U+00FF
    without the signs U+00D7 and U+00F7) and the numeric characters (U+00B2,
    U+00B3, U+00B9, U+00BC..U+00BE). *)
Definition char_isalnum (c : ascii) : bool :=
  let n := ascii_code c in
  (ascii_alnum c
   || (n =? 170) || (n =? 178) || (n =? 179) || (n =? 181) || (n =? 185)
   || (n =? 186) || ((188 <=? n) && (n <=? 190)) || ((192 <=? n) && (n <=? 214))
   || ((216 <=? n) && (n <=? 246)) || (248 <=? n))%N.

(** The characters of the URL-safe alphabet. *)
Definition url_char (c : ascii) : bool :=
  ascii_alnum c || Ascii.eqb c "-" || Ascii.eqb c "_".

(** The characters of a key segment: digits and upper-case letters. *)
Definition key_char (c : ascii) : bool := is_digit c || is_upper c.

(** [str.upper] on one character of ASCII text. *)
Definition char_upper (c : ascii) : ascii :=
  if is_lower c then ascii_of_N (ascii_code c - 32) else c.

Fixpoint str_map (f : ascii -> ascii) (s : string) : string :=
  match s with
  | EmptyString => EmptyString
  | String c rest => String (f c) (str_map f rest)
  end.

Fixpoint str_forall (p : ascii -> bool) (s : string) : bool :=
  match s with
  | EmptyString => true
  | String c rest => p c && str_forall p rest
  end.

Definition upper (s : string) : string := str_map char_upper s.

(** A segment as [key_part] produces it: [n] digits and upper-case letters. *)
Definition key_segment (n : nat) (part : string) : Prop :=
  str_forall key_char part = true /\ String.length part = n.

(** [s.replace(a, b)] for one-character [a] and [b]. *)
Definition replace_char (a b : ascii) (s : string) : string :=
  str_map (fun c => if Ascii.eqb c a then b else c) s.

(** [s.isalnum()]: at least one character and all of them alphanumeric. *)
Definition isalnum (s : string) : bool :=
  match s with
  | EmptyString => false
  | _ => str_forall char_isalnum s
  end.

(** A group of an accepted key: alphanumeric, at least four characters. *)
Definition key_group_ok (part : string) : Prop :=
  isalnum part = true /\ (4 <= String.length part)%nat.

(** [s.split(sep)] for a one-character separator. *)
Fixpoint split (sep : ascii) (s : string) : list string :=
  match s with
  | EmptyString => [EmptyString]
  | String c rest =>
      if Ascii.eqb c sep then EmptyString :: split sep rest
      else
        match split sep rest with
        | h :: t => String c h :: t
        | [] => [String c EmptyString]
        end
  end.

(** [s[:n]] for [0 <= n]. *)
Fixpoint str_take (n : nat) (s : string) : string :=
  match n, s with
  | S n', String c rest => String c (str_take n' rest)
  | _, _ => EmptyString
  end.

(** ** URL-safe base64 ([base64.urlsafe_b64encode]) *)

Definition b64_alphabet : list ascii :=
  list_ascii_of_string
    "ABCDEFGHIJKLMNOPQRSTUVWXYZabcdefghijklmnopqrstuvwxyz0123456789-_".

Definition b64_char (sextet : Z) : ascii :=
  nth (Z.to_nat (Z.land sextet 63)) b64_alphabet "A"%char.

Fixpoint urlsafe_b64encode (bs : list Z) : list ascii :=
  match bs with
  | [] => []
  | [a] =>
      let n := Z.shiftl a 4 in
      [b64_char (Z.shiftr n 6); b64_char n; "="%char; "="%char]
  | [a; b] =>
      let n := Z.shiftl (Z.lor (Z.shiftl a 8) b) 2 in
      [b64_char (Z.shiftr n 12); b64_char (Z.shiftr n 6); b64_char n; "="%char]
  | a :: b :: c :: rest =>
      let n := Z.lor (Z.lor (Z.shiftl a 16) (Z.shiftl b 8)) c in
      b64_char (Z.shiftr n 18) :: b64_char (Z.shiftr n 12)
        :: b64_char (Z.shiftr n 6) :: b64_char n :: urlsafe_b64encode rest
  end.

(** [bytes.rstrip(b'=')] *)
Fixpoint rstrip_eq (l : list ascii) : list ascii :=
  match l with
  | [] => []
  | c :: rest =>
      match rstrip_eq rest with
      | [] => if Ascii.eqb c "="%char then [] else [c]
      | r => c :: r
      end
  end.

(** ** [secrets.token_urlsafe] *)

Definition token_urlsafe (nbytes : Z) (e : entropy) : result (string * entropy) :=
  if nbytes <? 0 then Raise (Exn.Value "negative argument not allowed")
  else
    let '(tok, e') := urandom (Z.to_nat nbytes) e in
    Ok (string_of_list_ascii (rstrip_eq (urlsafe_b64encode tok)), e').

(** ** Licence keys ([LicenseKeyGenerator]) *)

Module LicenseKeyGenerator.

(** One iteration of the loop of [generate_license_key]. *)
Definition key_part (part_length : Z) (e : entropy) : result (string * entropy) :=
  match token_urlsafe part_length e with
  | Raise x => Raise x
  | Ok (tok, e') =>
      let part := upper (str_take (Z.to_nat part_length) tok) in
      let part := replace_char "_" "1" (replace_char "-" "0" part) in
      Ok (part, e')
  end.

Fixpoint key_parts (rounds : nat) (part_length : Z) (e : entropy)
  : result (list string * entropy) :=
  match rounds with
  | O => Ok ([], e)
  | S k =>
      match key_part part_length e with
      | Raise x => Raise x
      | Ok (part, e') =>
          match key_parts k part_length e' with
          | Raise x => Raise x
          | Ok (parts, e'') => Ok (part :: parts, e'')
          end
      end
  end.

Definition generate_license_key
    (settings : Settings) (prefix : string) (length : option Z) (e : entropy)
  : result (string * entropy) :=
  let length :=
    match length with
    | None => license_key_length settings
    | Some l => l
    end in
  let key_length := length - Z.of_nat (String.length prefix) - 3 in
  let part_length := key_length / 4 in
  match key_parts 4 part_length e with
  | Raise x => Raise x
  | Ok (key_parts, e') =>
      Ok (prefix +:+ "-" +:+ String.concat "-" key_parts, e')
  end.

Definition validate_license_key_format (license_key : string) : bool :=
  match license_key with
  | EmptyString => false
  | _ =>
      let parts := split "-" license_key in
      if negb (Nat.eqb (List.length parts) 5) then false
      else
        match parts with
        | p0 :: rest =>
            if negb (String.eqb p0 "FL") then false
            else
              forallb
                (fun part =>
                   negb (negb (isalnum part)
                         || (Z.of_nat (String.length part) <? 4)))
                rest
        | [] => false
        end
  end.

End LicenseKeyGenerator.

(** ** Signed tokens ([JWTManager])

    The RSA primitives and the JOSE serialisation come from the
    [cryptography] and [python-jose] libraries.  The signature primitive is an
    interface; a token is the triple that its compact text encodes. *)

(** The claims of a subscription token. *)
Record Claims : Type := mkClaims {
  subscription_id : string;
  customer_id : string;
  tier : string;
  features : gmap string feature_value;
  device_id : string;
  expires_at : option iso_text;
  grace_period_days : Z;
  iss : string;
  aud : string;
  iat : Z;
  exp : Z;
  jti : string
}.

Class SignatureScheme : Type := {
  private_key : Type;
  public_key : Type;
  signature : Type;
  sign : private_key -> string * Claims -> signature;
  verify : public_key -> string * Claims -> signature -> bool
}.

(** What [jose.jwt.decode] raises: [ExpiredSignatureError] for an expired
    token, [JWTClaimsError] for a wrong audience or issuer, [JWTError] for
    any other rejection (unparsable text, wrong algorithm, bad signature). *)
Inductive jose_error : Type :=
| ExpiredSignatureError
| JWTClaimsError
| JWTError.

Record VerifyResult : Type := mkVerifyResult {
  valid : bool;
  payload : option Claims;
  error : option string
}.

Section JWT.

Context {scheme : SignatureScheme}.

(** A token string: the compact form of a header, claims and a signature, or
    text that does not parse as one. *)
Inductive token : Type :=
| Compact (alg : string) (claims : Claims) (sig : signature)
| Malformed (text : string).

Record JWTManager : Type := mkJWTManager {
  _private_key : option private_key;
  _public_key : option public_key
}.

(** [jwt.encode(payload, key, algorithm)] *)
Definition jwt_encode (payload : Claims) (key : private_key) (algorithm : string)
  : token :=
  Compact algorithm payload (sign key (algorithm, payload)).

(** [jwt.decode(token, key, algorithms, audience, issuer)] with signature,
    expiry, audience and issuer verification; [now_s] is the clock in whole
    seconds. *)
Definition jwt_decode (tok : token) (key : public_key) (algorithms : list string)
    (audience issuer : string) (now_s : Z) : jose_error + Claims :=
  match tok with
  | Malformed _ => inl JWTError
  | Compact alg claims sig =>
      if negb (existsb (String.eqb alg) algorithms) then inl JWTError
      else if negb (verify key (alg, claims) sig) then inl JWTError
      else if exp claims <? now_s then inl ExpiredSignatureError
      else if negb (String.eqb (aud claims) audience) then inl JWTClaimsError
      else if negb (String.eqb (iss claims) issuer) then inl JWTClaimsError
      else inr claims
  end.

(** [int(dt.timestamp())]: whole seconds, truncated towards zero. *)
Definition timestamp_int (t : datetime) : Z := Z.quot t 1000000.

(** The body of the [try] block of [generate_subscription_token]. *)
Definition build_subscription_token
    (settings : Settings) (key : private_key) (subscription_data : TokenData)
    (now : datetime) (e : entropy) : result (token * entropy) :=
  let parsed :=
    match td_expires_at subscription_data with
    | Some (ExpStr (IsoOf t)) => Ok (Some t)
    | Some (ExpStr (NotIso s)) => Raise (Exn.Value "Invalid isoformat string")
    | Some (ExpDatetime t) => Ok (Some t)
    | None => Ok None
    end in
  match parsed with
  | Raise x => Raise x
  | Ok expires_at =>
      match token_urlsafe 16 e with
      | Raise x => Raise x
      | Ok (jti, e') =>
          let payload :=
            mkClaims
              (td_id subscription_data)
              (td_customer_id subscription_data)
              (td_tier subscription_data)
              (td_features subscription_data)
              (td_device_id subscription_data)
              (match expires_at with
               | Some t => Some (isoformat t)
               | None => None
               end)
              (match td_grace_period_days subscription_data with
               | Some g => g
               | None => default_grace_period_days settings
               end)
              "flowlytix-licensing"
              "flowlytix-app"
              (timestamp_int now)
              (timestamp_int (now + timedelta_days 30))
              jti in
          Ok (jwt_encode payload key "RS256", e')
      end
  end.

Definition generate_subscription_token
    (settings : Settings) (jm : JWTManager) (subscription_data : TokenData)
    (now : datetime) (e : entropy) : result (token * entropy) :=
  match _private_key jm with
  | None => Raise (Exn.Token "Private key not initialized")
  | Some key =>
      match build_subscription_token settings key subscription_data now e with
      | Ok r => Ok r
      | Raise x =>
          Raise (Exn.Token ("Failed to generate token: " +:+ Exn.message x))
      end
  end.

(** [verify_subscription_token].  The [except] clauses are tried in order:
    [jwt.ExpiredSignatureError] first; the second clause names
    [jwt.InvalidTokenError], which the [jose.jwt] module does not have, so
    for an exception that the first clause does not match the lookup of that
    name raises [AttributeError], and the clauses after it are not tried. *)
Definition verify_subscription_token
    (jm : JWTManager) (tok : token) (now : datetime) : result VerifyResult :=
  match _public_key jm with
  | None => Raise (Exn.Token "Public key not initialized")
  | Some key =>
      match jwt_decode tok key ["RS256"] "flowlytix-app" "flowlytix-licensing"
              (now / 1000000) with
      | inr payload => Ok (mkVerifyResult true (Some payload) None)
      | inl ExpiredSignatureError =>
          Ok (mkVerifyResult false None (Some "token_expired"))
      | inl _ =>
          Raise (Exn.Attribute
                   "module 'jose.jwt' has no attribute 'InvalidTokenError'")
      end
  end.

End JWT.


(** ** [uuid.uuid4] *)

(** [int.from_bytes(bs, 'big')] *)
Definition int_from_bytes (bs : list Z) : Z :=
  fold_left (fun acc b => Z.lor (Z.shiftl acc 8) b) bs 0.

(** [UUID(bytes=os.urandom(16), version=4)]: variant and version bits set. *)
Definition uuid4 (e : entropy) : UUID * entropy :=
  let '(bs, e') := urandom 16 e in
  let int := int_from_bytes bs in
  let int := Z.land int (Z.lnot (Z.shiftl 49152 48)) in
  let int := Z.lor int (Z.shiftl 32768 48) in
  let int := Z.land int (Z.lnot (Z.shiftl 61440 64)) in
  let int := Z.lor int (Z.shiftl 4 76) in
  (int, e').

(** ** Repository contracts ([app/domain/repositories/subscription_repository.py])

    The service reaches storage through two interfaces that share one
    session.  Only the methods that the modelled operations call are listed.
    A method that writes returns the new store; a raised exception leaves no
    store behind (the session is rolled back). *)

Class ISubscriptionRepository (Store : Type) : Type := {
  sub_get_by_license_key : Store -> string -> result (option Subscription.t);
  sub_update : Store -> Subscription.t -> datetime -> result (Subscription.t * Store)
}.

Class IDeviceRepository (Store : Type) : Type := {
  dev_create : Store -> Device.t -> result (Device.t * Store);
  dev_update : Store -> Device.t -> datetime -> result (Device.t * Store)
}.

(** ** SQLAlchemy repositories
    ([app/infrastructure/database/repositories/subscription_repository.py]) *)

(** A row of the [subscriptions] table ([SubscriptionModel]); the enumerated
    columns hold the enumeration members. *)
Record SubscriptionModel : Type := mkSubscriptionModel {
  m_id : UUID;
  m_customer_id : UUID;
  m_license_key : string;
  m_tier : SubscriptionTier;
  m_status : SubscriptionStatus;
  m_features : gmap string feature_value;
  m_max_devices : Z;
  m_starts_at : datetime;
  m_expires_at : option datetime;
  m_grace_period_days : Z;
  m_currency : string;
  m_auto_renew : bool;
  m_renewal_period_days : option Z;
  m_created_at : datetime;
  m_updated_at : datetime
}.

(** The database: the [subscriptions] table and the [devices] table, whose
    rows have the columns of the [Device] entity. *)
Record Database : Type := mkDatabase {
  subscriptions : list SubscriptionModel;
  device_rows : list Device.t
}.

Module SubscriptionRepository.

(** [_model_to_entity]: the device list of the entity is always empty. *)
Definition _model_to_entity (model : SubscriptionModel) : Subscription.t :=
  let devices : list Device.t := [] in
  Subscription.mk
    (m_id model) (m_customer_id model) (m_license_key model) (m_tier model)
    (m_status model) (m_max_devices model) (m_starts_at model)
    (m_expires_at model) (m_grace_period_days model) (m_currency model)
    (m_auto_renew model) (m_renewal_period_days model) (m_created_at model)
    (m_updated_at model) devices
    (FeatureSet.init (m_tier model) (Some (m_features model))).

(** [result.scalar_one_or_none()] *)
Definition scalar_one_or_none {A : Type} (rows : list A) : result (option A) :=
  match rows with
  | [] => Ok None
  | [row] => Ok (Some row)
  | _ =>
      Raise (Exn.SQLAlchemy "Multiple rows were found when one or none was required")
  end.

Definition get_by_id (db : Database) (subscription_id : UUID)
  : result (option Subscription.t) :=
  match scalar_one_or_none
          (List.filter (fun m => m_id m =? subscription_id) (subscriptions db)) with
  | Ok (Some model) => Ok (Some (_model_to_entity model))
  | Ok None => Ok None
  | Raise x =>
      Raise (Exn.Database ("Failed to get subscription: " +:+ Exn.message x)
               (Some "get_by_id"))
  end.

Definition get_by_license_key (db : Database) (license_key : string)
  : result (option Subscription.t) :=
  match scalar_one_or_none
          (List.filter (fun m => String.eqb (m_license_key m) license_key)
             (subscriptions db)) with
  | Ok (Some model) => Ok (Some (_model_to_entity model))
  | Ok None => Ok None
  | Raise x =>
      Raise (Exn.Database ("Failed to get subscription: " +:+ Exn.message x)
               (Some "get_by_license_key"))
  end.

(** The [UPDATE subscriptions ... WHERE id = :id] statement of [update]. *)
Definition update_row (subscription : Subscription.t) (now : datetime)
    (m : SubscriptionModel) : SubscriptionModel :=
  if m_id m =? Subscription.id subscription then
    mkSubscriptionModel
      (m_id m) (m_customer_id m) (m_license_key m)
      (Subscription.tier subscription)
      (Subscription.status subscription)
      (FeatureSet.features (Subscription.feature_set subscription))
      (Subscription.max_devices subscription)
      (Subscription.starts_at subscription)
      (Subscription.expires_at subscription)
      (Subscription.grace_period_days subscription)
      (Subscription.currency subscription)
      (Subscription.auto_renew subscription)
      (Subscription.renewal_period_days subscription)
      (m_created_at m)
      now
  else m.

Definition update (db : Database) (subscription : Subscription.t) (now : datetime)
  : result (Subscription.t * Database) :=
  let db' :=
    mkDatabase (List.map (update_row subscription now) (subscriptions db))
      (device_rows db) in
  let failed (message : string) :=
    Raise (Exn.Database ("Failed to update subscription: " +:+ message)
             (Some "update")) in
  match get_by_id db' (Subscription.id subscription) with
  | Ok (Some updated_subscription) => Ok (updated_subscription, db')
  | Ok None => failed "Subscription not found after update"
  | Raise x => failed (Exn.message x)
  end.





End SubscriptionRepository.

Module DeviceRepository.

(** The constraints of the [devices] table that relate a new row to the
    stored rows, checked when the session is flushed: primary key, foreign
    key to [subscriptions], and the unique index
    [idx_devices_subscription_device_unique] on
    [(subscription_id, device_id)].  The length limits of the text columns
    are not represented. *)
Definition insert_allowed (db : Database) (device : Device.t) : bool :=
  negb (existsb (fun d => Device.id d =? Device.id device) (device_rows db))
  && existsb (fun m => m_id m =? Device.subscription_id device) (subscriptions db)
  && negb (existsb
             (fun d =>
                (Device.subscription_id d =? Device.subscription_id device)
                && String.eqb (Device.device_id d) (Device.device_id device))
             (device_rows db)).

(** [create]: in the message of the failure, [IntegrityError] stands for the
    text of the driver's error. *)
Definition create (db : Database) (device : Device.t) : result (Device.t * Database) :=
  if insert_allowed db device then
    Ok (device, mkDatabase (subscriptions db) (device_rows db ++ [device]))
  else
    Raise (Exn.Database "Failed to create device: IntegrityError" (Some "create")).

Definition get_by_id (db : Database) (device_id : UUID) : result (option Device.t) :=
  match SubscriptionRepository.scalar_one_or_none
          (List.filter (fun d => Device.id d =? device_id) (device_rows db)) with
  | Ok r => Ok r
  | Raise x =>
      Raise (Exn.Database ("Failed to get device: " +:+ Exn.message x)
               (Some "get_by_id"))
  end.

(** The [UPDATE devices ... WHERE id = :id] statement of [update]. *)
Definition update_row (device : Device.t) (now : datetime) (d : Device.t) : Device.t :=
  if Device.id d =? Device.id device then
    Device.mk (Device.id d) (Device.subscription_id d) (Device.device_id d)
      (Device.device_name device) (Device.device_type device)
      (Device.fingerprint device) (Device.os_name device)
      (Device.os_version device) (Device.app_version device)
      (Device.is_active device) (Device.last_seen_at device)
      (Device.created_at d) now
  else d.

Definition update (db : Database) (device : Device.t) (now : datetime)
  : result (Device.t * Database) :=
  let db' :=
    mkDatabase (subscriptions db) (List.map (update_row device now) (device_rows db)) in
  let failed (message : string) :=
    Raise (Exn.Database ("Failed to update device: " +:+ message) (Some "update")) in
  match get_by_id db' (Device.id device) with
  | Ok (Some updated_device) => Ok (updated_device, db')
  | Ok None => failed "Device not found after update"
  | Raise x => failed (Exn.message x)
  end.

Definition get_by_device_id (db : Database) (device_id : string)
    (subscription_id : UUID) : result (option Device.t) :=
  match SubscriptionRepository.scalar_one_or_none
          (List.filter
             (fun d =>
                String.eqb (Device.device_id d) device_id
                && (Device.subscription_id d =? subscription_id))
             (device_rows db)) with
  | Ok r => Ok r
  | Raise x =>
      Raise (Exn.Database ("Failed to get device: " +:+ Exn.message x)
               (Some "get_by_device_id"))
  end.

(** [delete]: the [DELETE FROM devices WHERE id = :id] statement; the flag
    says whether a row was deleted ([result.rowcount > 0]). *)
Definition delete (db : Database) (device_id : UUID) : bool * Database :=
  let remaining :=
    List.filter (fun d => negb (Device.id d =? device_id)) (device_rows db) in
  let rowcount :=
    Z.of_nat (length (device_rows db)) - Z.of_nat (length remaining) in
  (rowcount >? 0, mkDatabase (subscriptions db) remaining).

End DeviceRepository.

#[export] Instance sql_subscription_repository : ISubscriptionRepository Database := {
  sub_get_by_license_key := SubscriptionRepository.get_by_license_key;
  sub_update := SubscriptionRepository.update
}.

#[export] Instance sql_device_repository : IDeviceRepository Database := {
  dev_create := DeviceRepository.create;
  dev_update := DeviceRepository.update
}.

(** ** The subscription service
    ([app/domain/services/subscription_service.py]) *)

(** The optional [device_info] dictionary of an activation request. *)
Record DeviceInfo : Type := mkDeviceInfo {
  info_device_name : option string;
  info_device_type : option string;
  info_fingerprint : option string;
  info_os_name : option string;
  info_os_version : option string;
  info_app_version : option string
}.

(** The dictionary returned by [validate_license]; a key that a branch does
    not set is [None]. *)
Record ValidationResult : Type := mkValidationResult {
  v_valid : bool;
  v_reason : option string;
  v_message : option string;
  v_expires_at : option iso_text;
  v_subscription : option Subscription.t;
  v_device : option Device.t;
  v_in_grace_period : option bool;
  v_days_until_expiry : option Z;
  v_features : option (gmap string feature_value)
}.

Section Service.

Context {Store : Type}.
Context {subscription_repo : ISubscriptionRepository Store}.
Context {device_repo : IDeviceRepository Store}.
Context {scheme : SignatureScheme}.

(** What an operation of the service reads and writes: the store behind the
    repositories and the random source. *)
Record World : Type := mkWorld {
  store : Store;
  rng : entropy
}.

(** The dictionary returned by [activate_license]. *)
Record ActivationResult : Type := mkActivationResult {
  a_token : token;
  a_subscription : Subscription.t;
  a_device : Device.t;
  a_action : string;
  a_message : string;
  a_expires_at : option iso_text
}.

Variable settings : Settings.
Variable security_manager : JWTManager.

(** The branch of [activate_license] taken for ["can_activate"]: create the
    device row, add the device to the aggregate, save the aggregate. *)
Definition activate_new_device
    (subscription : Subscription.t) (device_id : string)
    (device_info : option DeviceInfo) (now : datetime) (w : World)
  : result (Device.t * Subscription.t * World) :=
  let '(new_id, rng') := uuid4 (rng w) in
  let field (f : DeviceInfo -> option string) : option string :=
    match device_info with
    | Some info => f info
    | None => None
    end in
  let device :=
    Device.mk new_id (Subscription.id subscription) device_id
      (field info_device_name) (field info_device_type)
      (field info_fingerprint) (field info_os_name)
      (field info_os_version) (field info_app_version)
      true (Some now) now now in
  match dev_create (store w) device with
  | Raise x => Raise x
  | Ok (created_device, st1) =>
      match Subscription.add_device subscription created_device now with
      | Raise x => Raise x
      | Ok (subscription, created_device) =>
          match sub_update st1 subscription now with
          | Raise x => Raise x
          | Ok (_, st2) => Ok (created_device, subscription, mkWorld st2 rng')
          end
      end
  end.

Definition activate_license
    (license_key device_id : string) (device_info : option DeviceInfo)
    (now : datetime) (w : World) : result (ActivationResult * World) :=
  match sub_get_by_license_key (store w) license_key with
  | Raise x => Raise x
  | Ok None => Raise (Exn.LicenseKeyInvalid "License key not found")
  | Ok (Some subscription) =>
      match Subscription.validate_for_activation subscription device_id now with
      | Raise x => Raise x
      | Ok (validation_result, subscription) =>
          let action := check_action validation_result in
          let step : result (option Device.t * Subscription.t * World) :=
            if String.eqb action "can_activate" then
              match activate_new_device subscription device_id device_info now w with
              | Raise x => Raise x
              | Ok (created_device, subscription, w') =>
                  Ok (Some created_device, subscription, w')
              end
            else if String.eqb action "reactivated" then
              match check_device validation_result with
              | None => Raise (Exn.Key "device")
              | Some (i, device) =>
                  let device := Device.update_last_seen now device in
                  let subscription :=
                    Subscription.with_devices
                      (<[i := device]> (Subscription.devices subscription))
                      subscription in
                  match dev_update (store w) device now with
                  | Raise x => Raise x
                  | Ok (_, st1) =>
                      Ok (Some device, subscription, mkWorld st1 (rng w))
                  end
              end
            else
              Ok (match check_device validation_result with
                  | Some (_, device) => Some device
                  | None => None
                  end, subscription, w) in
          match step with
          | Raise x => Raise x
          | Ok (result_device, subscription, w1) =>
              let token_payload := Subscription.to_token_payload subscription device_id in
              match generate_subscription_token settings security_manager
                      token_payload now (rng w1) with
              | Raise x => Raise x
              | Ok (tok, rng') =>
                  match result_device with
                  | None => Raise (Exn.Key "device")
                  | Some device =>
                      Ok (mkActivationResult tok subscription device action
                            (check_message validation_result)
                            (match Subscription.expires_at subscription with
                             | Some e => Some (isoformat e)
                             | None => None
                             end),
                          mkWorld (store w1) rng')
                  end
              end
          end
      end
  end.

Definition validate_license
    (license_key device_id : string) (update_last_seen : bool)
    (now : datetime) (w : World) : result (ValidationResult * World) :=
  match sub_get_by_license_key (store w) license_key with
  | Raise x => Raise x
  | Ok None => Raise (Exn.LicenseKeyInvalid "License key not found")
  | Ok (Some subscription) =>
      let not_activated :=
        Ok (mkValidationResult false (Some "device_not_activated")
              (Some "Device not activated for this subscription")
              None None None None None None, w) in
      (* [subscription.get_device(device_id)], keeping the position of the
         object so that [device.update_last_seen()] below updates the list *)
      match Subscription.lookup_device (Subscription.devices subscription) device_id with
      | None => not_activated
      | Some (i, device) =>
          if negb (Device.is_active device) then not_activated
          else if negb (Subscription.is_active subscription now) then
            let status :=
              if Subscription.is_expired subscription now then "expired"
              else "inactive" in
            Ok (mkValidationResult false (Some status)
                  (Some ("Subscription is " +:+ status))
                  (match Subscription.expires_at subscription with
                   | Some e => Some (isoformat e)
                   | None => None
                   end)
                  None None None None None, w)
          else
            let touched : result (Device.t * Subscription.t * World) :=
              if update_last_seen then
                let device := Device.update_last_seen now device in
                let subscription :=
                  Subscription.with_devices
                    (<[i := device]> (Subscription.devices subscription))
                    subscription in
                match dev_update (store w) device now with
                | Raise x => Raise x
                | Ok (_, st1) => Ok (device, subscription, mkWorld st1 (rng w))
                end
              else Ok (device, subscription, w) in
            match touched with
            | Raise x => Raise x
            | Ok (device, subscription, w1) =>
                let in_grace_period := Subscription.is_in_grace_period subscription now in
                let days_until_expiry := Subscription.days_until_expiry subscription now in
                Ok (mkValidationResult true None None None
                      (Some subscription) (Some device)
                      (Some in_grace_period) days_until_expiry
                      (Some (FeatureSet.features (Subscription.feature_set subscription))),
                    w1)
            end
      end
  end.

Definition deactivate_device
    (license_key device_id : string) (now : datetime) (w : World)
  : result (bool * World) :=
  match sub_get_by_license_key (store w) license_key with
  | Raise x => Raise x
  | Ok None => Raise (Exn.LicenseKeyInvalid "License key not found")
  | Ok (Some subscription) =>
      let '(removed, subscription) :=
        Subscription.remove_device subscription device_id now in
      if removed then
        match sub_update (store w) subscription now with
        | Raise x => Raise x
        | Ok (_, st1) => Ok (removed, mkWorld st1 (rng w))
        end
      else Ok (removed, w)
  end.

End Service.

(** ** HTTP routes ([app/api/routes/subscription.py])

    A route returns its response model or raises [HTTPException]. *)

Inductive http_result (A : Type) : Type :=
| Response (a : A)
| HTTPException (status_code : Z) (detail : string).

Arguments Response {A} a.
Arguments HTTPException {A} status_code detail.


Section Routes.

Context {Store : Type}.
Context {subscription_repo : ISubscriptionRepository Store}.
Context {device_repo : IDeviceRepository Store}.
Context {scheme : SignatureScheme}.

Variable settings : Settings.
Variable security_manager : JWTManager.



(** [POST /validate]: the service is called with [update_last_seen=True]. *)
Definition validate_license_route
    (license_key device_id : string) (now : datetime) (w : World)
  : http_result (ValidationResult * World) :=
  match validate_license license_key device_id true now w with
  | Ok (result, w') =>
      if v_valid result then
        Response
          (mkValidationResult true None None None
             (match v_subscription result with
              | Some s => Some (Subscription.with_devices [] s)
              | None => None
              end)
             (v_device result) (v_in_grace_period result)
             (v_days_until_expiry result) (v_features result), w')
      else
        Response
          (mkValidationResult false (v_reason result) (v_message result)
             (v_expires_at result) None None None None None, w')
  | Raise x =>
      match Exn.cls x with
      | Exn.LicenseKeyInvalidException =>
          Response
            (mkValidationResult false (Some "invalid_license")
               (Some "Invalid license key") None None None None None None, w)
      | _ => HTTPException 500 "Internal server error"
      end
  end.

(** [POST /deactivate]: the flag and the message of the response. *)
Definition deactivate_device_route
    (license_key device_id : string) (now : datetime) (w : World)
  : http_result (bool * string * World) :=
  match deactivate_device license_key device_id now w with
  | Ok (result, w') =>
      Response
        (result,
         if result then "Device deactivated successfully" else "Device not found",
         w')
  | Raise x =>
      match Exn.cls x with
      | Exn.LicenseKeyInvalidException => HTTPException 401 "Invalid license key"
      | _ => HTTPException 500 "Internal server error"
      end
  end.

End Routes.

(** What the body of a route's [try] block can raise: an exception of the
    application or an [HTTPException]; both derive from [Exception]. *)
Inductive raised : Type :=
| RaisedException (x : Exn.t)
| RaisedHTTPException (status_code : Z) (detail : string).

(** The truth value of a feature value in a condition. *)
Definition feature_truthy (v : feature_value) : bool :=
  match v with
  | FBool b => b
  | FInt z => negb (z =? 0)
  end.

Section FeatureRoute.

Context {Store : Type}.
Context {subscription_repo : ISubscriptionRepository Store}.

(** The response model and its constructor, which validates the fields it is
    given and may raise. *)
Variable FeatureCheckResponse : Type.
Variable FeatureCheckResponse_init :
  string -> feature_value -> option feature_value -> string ->
  result FeatureCheckResponse.

(** The [try] block of [POST /check-feature]. *)
Definition check_feature_body (license_key feature_name : string) (st : Store)
  : raised + FeatureCheckResponse :=
  match sub_get_by_license_key st license_key with
  | Raise x => inl (RaisedException x)
  | Ok None => inl (RaisedHTTPException 401 "Invalid license key")
  | Ok (Some subscription) =>
      let enabled :=
        FeatureSet.has_feature (Subscription.feature_set subscription) feature_name in
      let limit_value :=
        if feature_truthy enabled then
          Some (FeatureSet.get_limit (Subscription.feature_set subscription)
                  feature_name)
        else None in
      match FeatureCheckResponse_init feature_name enabled limit_value
              (tier_value (Subscription.tier subscription)) with
      | Ok response => inr response
      | Raise x => inl (RaisedException x)
      end
  end.

(** [POST /check-feature]: the single [except Exception] clause handles
    whatever the [try] block raises. *)
Definition check_feature (license_key feature_name : string) (st : Store)
  : http_result FeatureCheckResponse :=
  match check_feature_body license_key feature_name st with
  | inr response => Response response
  | inl _ => HTTPException 500 "Internal server error"
  end.

End FeatureRoute.

(** ** Table constraints
    ([app/infrastructure/database/models/subscription.py])

    The primary key of [devices], its foreign key to [subscriptions] and the
    unique index on [(subscription_id, device_id)], as a property of a
    database. *)

Definition device_key (d : Device.t) : UUID * string :=
  (Device.subscription_id d, Device.device_id d).

Definition devices_consistent (db : Database) : Prop :=
  NoDup (List.map Device.id (device_rows db))
  /\ NoDup (List.map device_key (device_rows db))
  /\ (forall d, In d (device_rows db) ->
        In (Device.subscription_id d) (List.map m_id (subscriptions db))).

(** ** Concrete collaborators used to run the operations

    A signature scheme with integer keys, a random stream and table rows, for
    evaluating the operations on explicit inputs. *)

Definition claims_digest (m : string * Claims) : Z :=
  Z.of_nat (String.length (fst m))
  + Z.of_nat (String.length (subscription_id (snd m)))
  + Z.of_nat (String.length (device_id (snd m)))
  + Z.of_nat (String.length (jti (snd m)))
  + iat (snd m) + exp (snd m).

Definition demo_scheme : SignatureScheme := {|
  private_key := Z;
  public_key := Z;
  signature := Z * Z;
  sign := fun key m => (key, claims_digest m);
  verify := fun key m sig => (fst sig =? key) && (snd sig =? claims_digest m)
|}.

Definition demo_manager : @JWTManager demo_scheme :=
  @mkJWTManager demo_scheme (Some 7) (Some 7).

Definition demo_entropy : entropy := fun i => Z.of_nat (i * 37 + 11).

(** 2024-01-01T00:00:00Z, in microseconds. *)
Definition demo_now : datetime := 1704067200 * 1000000.

Definition demo_row (status : SubscriptionStatus) (expires_at : option datetime)
    (max_devices grace_period_days : Z) : SubscriptionModel :=
  mkSubscriptionModel 1001 2002 "FL-AAAA-BBBB-CCCC-DDDD" BASIC status ∅
    max_devices (demo_now - timedelta_days 30) expires_at grace_period_days
    "USD" false None (demo_now - timedelta_days 30) (demo_now - timedelta_days 30).

Definition demo_device (device_id : string) (is_active : bool) : Device.t :=
  Device.mk 3003 1001 device_id None None None None None None is_active None
    (demo_now - timedelta_days 3) (demo_now - timedelta_days 3).

Definition demo_subscription (status : SubscriptionStatus)
    (expires_at : option datetime) (max_devices grace_period_days : Z)
    (devices : list Device.t) : Subscription.t :=
  Subscription.with_devices devices
    (SubscriptionRepository._model_to_entity
       (demo_row status expires_at max_devices grace_period_days)).


Definition demo_key : string := "FL-AAAA-BBBB-CCCC-DDDD".


(** The same subscription with the device ["d1"] bound to it. *)
Definition demo_bound_db : Database :=
  mkDatabase [demo_row ACTIVE None 1 7] [demo_device "d1" true].

Definition demo_world (db : Database) : @World Database := mkWorld db demo_entropy.


(** * Properties *)

(** ** Device lookup *)

Lemma lookup_device_Some (ds : list Device.t) (device_id : string) i d :
  Subscription.lookup_device ds device_id = Some (i, d) ->
  ds !! i = Some d /\ Device.device_id d = device_id
  /\ forall j d', (j < i)%nat -> ds !! j = Some d' -> Device.device_id d' <> device_id.
Proof.
  revert i d.
  induction ds as [|x rest IH]; intros i d H; simpl in H; [discriminate|].
  destruct (String.eqb (Device.device_id x) device_id) eqn:E.
  - inversion H; subst. apply String.eqb_eq in E.
    split; [reflexivity|]. split; [exact E|]. intros j d' Hj. lia.
  - destruct (Subscription.lookup_device rest device_id) as [[i' x']|] eqn:L;
      [|discriminate].
    inversion H; subst. destruct (IH _ _ eq_refl) as (H1 & H2 & H3).
    split; [exact H1|]. split; [exact H2|].
    intros [|j] d' Hj Hd'; simpl in Hd'.
    + inversion Hd'; subst. apply String.eqb_neq. exact E.
    + apply (H3 j d'); [lia|exact Hd'].
Qed.

Lemma lookup_device_None (ds : list Device.t) (device_id : string) :
  Subscription.lookup_device ds device_id = None <->
  forall d, In d ds -> Device.device_id d <> device_id.
Proof.
  induction ds as [|x rest IH]; simpl.
  - split; [intros _ d []|reflexivity].
  - destruct (String.eqb (Device.device_id x) device_id) eqn:E.
    + split; [discriminate|]. intros H. exfalso.
      apply (H x); [left; reflexivity|]. apply String.eqb_eq. exact E.
    + destruct (Subscription.lookup_device rest device_id) as [[i' x']|] eqn:L.
      * split; [discriminate|]. intros H.
        destruct IH as [_ IH2]. discriminate IH2.
        intros d Hd. apply H. right. exact Hd.
      * split; [|reflexivity]. intros _ d [<-|Hd].
        -- apply String.eqb_neq. exact E.
        -- destruct IH as [IH1 _]. apply IH1; [reflexivity|exact Hd].
Qed.

Lemma lookup_device_found (ds : list Device.t) (device_id : string) :
  (exists d, In d ds /\ Device.device_id d = device_id) <->
  exists i d, Subscription.lookup_device ds device_id = Some (i, d).
Proof.
  split.
  - intros (d & Hin & Hid).
    destruct (Subscription.lookup_device ds device_id) as [[i x]|] eqn:L.
    + exists i, x. reflexivity.
    + exfalso. apply (proj1 (lookup_device_None ds device_id) L d Hin Hid).
  - intros (i & d & L). apply lookup_device_Some in L as (H1 & H2 & _).
    exists d. split; [|exact H2].
    apply list_elem_of_In. apply list_elem_of_lookup. exists i. exact H1.
Qed.

(** ** Device slots: [add_device] *)

(** C4.  [add_device] succeeds exactly when the number of devices whose active
    flag is true is strictly below [max_devices]; on success the device is
    bound to the subscription's id and appended to the device list; otherwise
    a [DeviceLimitExceededException] is raised whose details carry both the
    current active-device count and [max_devices]. *)
Theorem add_device_iff_below_limit
    (s : Subscription.t) (device : Device.t) (now : datetime) :
  let count := Z.of_nat (length (List.filter Device.is_active (Subscription.devices s))) in
  ((exists s' device', Subscription.add_device s device now = Ok (s', device'))
   <-> count < Subscription.max_devices s)
  /\ (forall s' device',
        Subscription.add_device s device now = Ok (s', device') ->
        device' = Device.set_subscription_id (Subscription.id s) device
        /\ Device.subscription_id device' = Subscription.id s
        /\ Subscription.devices s' = (Subscription.devices s ++ [device'])%list)
  /\ (forall x,
        Subscription.add_device s device now = Raise x ->
        ~ count < Subscription.max_devices s
        /\ Exn.cls x = Exn.DeviceLimitExceededException
        /\ Exn.details x !! "current_devices" = Some (Exn.DInt count)
        /\ Exn.details x !! "max_devices"
           = Some (Exn.DInt (Subscription.max_devices s))).
Proof.
  intros count. unfold Subscription.add_device, Subscription.can_add_device,
    Subscription.active_devices. fold count.
  destruct (count <? Subscription.max_devices s) eqn:E; simpl.
  - apply Z.ltb_lt in E. split; [|split].
    + split; [intros _; exact E|]. intros _. eexists _, _. reflexivity.
    + intros s' device' H. inversion H; subst. simpl. auto.
    + intros x H. discriminate H.
  - apply Z.ltb_ge in E. split; [|split].
    + split; [intros (s' & d' & H); discriminate H|lia].
    + intros s' device' H. discriminate H.
    + intros x H. inversion H; subst. simpl.
      split; [lia|]. split; [reflexivity|]. split.
      * rewrite lookup_insert_ne by discriminate. apply lookup_insert_eq.
      * apply lookup_insert_eq.
Qed.

(** ** Usability and grace period *)

Lemma status_eqb_eq (a b : SubscriptionStatus) : status_eqb a b = true <-> a = b.
Proof. destruct a, b; simpl; split; congruence. Qed.

(** The comparison [is_active] is true exactly when the status is active, the
    clock has reached [starts_at], and either there is no expiry or the clock
    is at most the expiry plus the grace period; it is false whenever the
    status is not active, whatever the timing fields. *)
Lemma is_active_iff (s : Subscription.t) (now : datetime) :
  (Subscription.is_active s now = true <->
   Subscription.status s = ACTIVE
   /\ Subscription.starts_at s <= now
   /\ (Subscription.expires_at s = None
       \/ exists e, Subscription.expires_at s = Some e
                    /\ now <= e + timedelta_days (Subscription.grace_period_days s)))
  /\ (Subscription.status s <> ACTIVE -> Subscription.is_active s now = false).
Proof.
  unfold Subscription.is_active.
  destruct (status_eqb (Subscription.status s) ACTIVE) eqn:Es; simpl.
  - apply status_eqb_eq in Es. split; [|congruence].
    destruct (now <? Subscription.starts_at s) eqn:Et.
    + apply Z.ltb_lt in Et. split; [discriminate|]. intros (_ & H & _). lia.
    + apply Z.ltb_ge in Et.
      destruct (Subscription.expires_at s) as [e|] eqn:Ee.
      * destruct (now >? e + timedelta_days (Subscription.grace_period_days s)) eqn:Eg.
        -- split; [discriminate|]. intros (_ & _ & [H|(e' & H & Hle)]);
             [discriminate|]. inversion H; subst. apply Z.gtb_lt in Eg. lia.
        -- split; [|reflexivity]. intros _. split; [exact Es|]. split; [exact Et|].
           right. exists e. split; [reflexivity|].
           rewrite Z.gtb_ltb in Eg. apply Z.ltb_ge in Eg. exact Eg.
      * split; [|reflexivity]. intros _. auto.
  - split.
    + split; [discriminate|]. intros (H & _). apply status_eqb_eq in H. congruence.
    + reflexivity.
Qed.

(** ** Date arithmetic *)

Lemma timedelta_checked_Ok (n : Z) :
  Z.abs n <= 999999999 -> timedelta_checked n = Ok (timedelta_days n).
Proof.
  intros H. unfold timedelta_checked, timedelta_max_days.
  destruct (Z.gtb_spec (Z.abs n) 999999999); [lia|reflexivity].
Qed.

Lemma timedelta_checked_Raise (n : Z) :
  999999999 < Z.abs n ->
  exists x, timedelta_checked n = Raise x /\ Exn.cls x = Exn.OverflowError.
Proof.
  intros H. unfold timedelta_checked, timedelta_max_days.
  destruct (Z.gtb_spec (Z.abs n) 999999999); [|lia].
  eexists. split; reflexivity.
Qed.

Lemma datetime_add_Ok (t : datetime) (d : timedelta) :
  datetime_min <= t + d <= datetime_max -> datetime_add t d = Ok (t + d).
Proof.
  intros H. unfold datetime_add. cbv zeta.
  destruct (Z.ltb_spec (t + d) datetime_min); [lia|].
  destruct (Z.gtb_spec (t + d) datetime_max); [lia|]. reflexivity.
Qed.

Lemma datetime_add_Raise (t : datetime) (d : timedelta) :
  ~ (datetime_min <= t + d <= datetime_max) ->
  datetime_add t d = Raise (Exn.Overflow "date value out of range").
Proof.
  intros H. unfold datetime_add. cbv zeta.
  destruct (Z.ltb_spec (t + d) datetime_min); [reflexivity|].
  destruct (Z.gtb_spec (t + d) datetime_max); [reflexivity|]. lia.
Qed.

(** The sum of a datetime and a number of days is computed exactly when the
    days are a timedelta and the sum is a datetime; otherwise the computation
    raises [OverflowError]. *)
Lemma add_days_cases (t : datetime) (n : Z) :
  (Z.abs n <= 999999999 /\ datetime_min <= t + timedelta_days n <= datetime_max
   /\ timedelta_checked n = Ok (timedelta_days n)
   /\ datetime_add t (timedelta_days n) = Ok (t + timedelta_days n))
  \/ (~ (Z.abs n <= 999999999
         /\ datetime_min <= t + timedelta_days n <= datetime_max)
      /\ exists x,
           match timedelta_checked n with
           | Raise x => Raise x
           | Ok delta => datetime_add t delta
           end = Raise x
           /\ Exn.cls x = Exn.OverflowError).
Proof.
  destruct (Z_le_gt_dec (Z.abs n) 999999999) as [Hn|Hn].
  - rewrite (timedelta_checked_Ok n Hn).
    destruct (Z_le_gt_dec datetime_min (t + timedelta_days n)) as [H1|H1];
      [destruct (Z_le_gt_dec (t + timedelta_days n) datetime_max) as [H2|H2]|].
    + left. split; [exact Hn|]. split; [lia|]. split; [reflexivity|].
      apply datetime_add_Ok. lia.
    + right. split; [lia|]. rewrite datetime_add_Raise by lia.
      eexists. split; reflexivity.
    + right. split; [lia|]. rewrite datetime_add_Raise by lia.
      eexists. split; reflexivity.
  - right. split; [lia|].
    destruct (timedelta_checked_Raise n) as (x & Hx & Hc); [lia|].
    rewrite Hx. exists x. auto.
Qed.

(** ** The usability predicate as the method runs *)

(** C5.  [is_active] (the usability predicate) returns true exactly when the
    status is active, the clock has reached [starts_at], and either there is
    no expiry or the expiry plus the grace period is a datetime that the
    clock has not passed; it returns false whenever the status is not active,
    whatever the timing fields.  It raises, with [OverflowError], exactly for
    an active, started subscription whose expiry plus grace period is not a
    datetime.  Whenever it returns, it returns the comparison [is_active]. *)
Theorem is_active_checked_iff (s : Subscription.t) (now : datetime) :
  (Subscription.is_active_checked s now = Ok true <->
   Subscription.status s = ACTIVE
   /\ Subscription.starts_at s <= now
   /\ (Subscription.expires_at s = None
       \/ exists e,
            Subscription.expires_at s = Some e
            /\ Z.abs (Subscription.grace_period_days s) <= 999999999
            /\ datetime_min
               <= e + timedelta_days (Subscription.grace_period_days s)
               <= datetime_max
            /\ now <= e + timedelta_days (Subscription.grace_period_days s)))
  /\ (Subscription.status s <> ACTIVE ->
      Subscription.is_active_checked s now = Ok false)
  /\ ((exists x, Subscription.is_active_checked s now = Raise x) <->
      Subscription.status s = ACTIVE
      /\ Subscription.starts_at s <= now
      /\ exists e,
           Subscription.expires_at s = Some e
           /\ ~ (Z.abs (Subscription.grace_period_days s) <= 999999999
                 /\ datetime_min
                    <= e + timedelta_days (Subscription.grace_period_days s)
                    <= datetime_max))
  /\ (forall x, Subscription.is_active_checked s now = Raise x ->
                Exn.cls x = Exn.OverflowError)
  /\ (forall b, Subscription.is_active_checked s now = Ok b ->
                Subscription.is_active s now = b).
Proof.
  unfold Subscription.is_active_checked, Subscription.is_active.
  destruct (status_eqb (Subscription.status s) ACTIVE) eqn:Es; cbn [negb].
  2:{ assert (Hs : Subscription.status s <> ACTIVE)
        by (intros H; apply status_eqb_eq in H; congruence).
      split; [split; [discriminate|tauto]|]. split; [reflexivity|].
      split; [split; [intros (x & H); discriminate|tauto]|].
      split; [discriminate|]. intros b H. inversion H. reflexivity. }
  apply status_eqb_eq in Es.
  destruct (Z.ltb_spec now (Subscription.starts_at s)) as [Ht|Ht].
  { split; [split; [discriminate|intros (_ & H & _); lia]|].
    split; [congruence|].
    split; [split; [intros (x & H); discriminate|intros (_ & H & _); lia]|].
    split; [discriminate|]. intros b H. inversion H. reflexivity. }
  destruct (Subscription.expires_at s) as [e|].
  2:{ split; [split; [auto|reflexivity]|]. split; [congruence|].
      split; [split; [intros (x & H); discriminate|
                      intros (_ & _ & e & H & _); discriminate]|].
      split; [discriminate|]. intros b H. inversion H. reflexivity. }
  cbv zeta.
  destruct (add_days_cases e (Subscription.grace_period_days s))
    as [(Hn & Hr & Hd & Ha)|(Hbad & x & Hx & Hc)].
  - rewrite Hd, Ha. rewrite Z.gtb_ltb.
    destruct (Z.ltb_spec (e + timedelta_days (Subscription.grace_period_days s)) now)
      as [Hg|Hg].
    + split; [split; [discriminate|]|].
      { intros (_ & _ & [H|(e' & He & _ & _ & Hle)]); [discriminate|].
        inversion He; subst e'. lia. }
      split; [congruence|].
      split; [split; [intros (y & H); discriminate|]|].
      { intros (_ & _ & e' & He & Hnot). inversion He; subst e'. tauto. }
      split; [discriminate|]. intros b H. inversion H. reflexivity.
    + split; [split; [|reflexivity]|].
      { intros _. split; [exact Es|]. split; [exact Ht|]. right. exists e.
        split; [reflexivity|]. split; [exact Hn|]. split; [exact Hr|exact Hg]. }
      split; [congruence|].
      split; [split; [intros (y & H); discriminate|]|].
      { intros (_ & _ & e' & He & Hnot). inversion He; subst e'. tauto. }
      split; [discriminate|]. intros b H. inversion H. reflexivity.
  - assert (Hraise :
      match timedelta_checked (Subscription.grace_period_days s) with
      | Ok grace =>
          match datetime_add e grace with
          | Ok grace_end => if now >? grace_end then Ok false else Ok true
          | Raise x0 => Raise x0
          end
      | Raise x0 => Raise x0
      end = Raise x).
    { destruct (timedelta_checked (Subscription.grace_period_days s)) as [d|y].
      - destruct (datetime_add e d); [discriminate|congruence].
      - congruence. }
    rewrite Hraise.
    split; [split; [discriminate|]|].
    { intros (_ & _ & [H|(e' & He & Hn & Hr & _)]); [discriminate|].
      inversion He; subst e'. tauto. }
    split; [congruence|].
    split; [split; [|intros _; exists x; reflexivity]|].
    { intros _. split; [exact Es|]. split; [exact Ht|]. exists e. auto. }
    split; [|discriminate]. intros y H. inversion H; subst y. exact Hc.
Qed.

(** C5 as stated fails: an active subscription that started in the past and
    expires on 9999-12-31 with a grace period of 7 days satisfies the three
    conditions, and [is_active] raises instead of answering true. *)
Lemma is_active_raises_near_datetime_max :
  Subscription.status
    (demo_subscription ACTIVE (Some (253402214400 * 1000000)) 1 7 []) = ACTIVE
  /\ Subscription.starts_at
       (demo_subscription ACTIVE (Some (253402214400 * 1000000)) 1 7 [])
     <= demo_now
  /\ (exists e,
        Subscription.expires_at
          (demo_subscription ACTIVE (Some (253402214400 * 1000000)) 1 7 [])
        = Some e
        /\ demo_now
           <= e + timedelta_days
                    (Subscription.grace_period_days
                       (demo_subscription ACTIVE
                          (Some (253402214400 * 1000000)) 1 7 [])))
  /\ Subscription.is_active_checked
       (demo_subscription ACTIVE (Some (253402214400 * 1000000)) 1 7 []) demo_now
     = Raise (Exn.Overflow "date value out of range").
Proof.
  split; [reflexivity|]. split; [vm_compute; discriminate|].
  split; [eexists; split; [reflexivity|vm_compute; discriminate]|].
  reflexivity.
Qed.

Lemma is_in_grace_period_iff (s : Subscription.t) (now : datetime) :
  Subscription.is_in_grace_period s now = true <->
  exists e, Subscription.expires_at s = Some e
            /\ e < now
            /\ now <= e + timedelta_days (Subscription.grace_period_days s).
Proof.
  unfold Subscription.is_in_grace_period.
  destruct (Subscription.expires_at s) as [e|].
  - rewrite andb_true_iff, Z.ltb_lt, Z.leb_le. split.
    + intros [H1 H2]. exists e. auto.
    + intros (e' & H & H1 & H2). inversion H; subst. auto.
  - split; [discriminate|]. intros (e & H & _). discriminate H.
Qed.

(** C6.  [is_in_grace_period] is true exactly when an expiry is set and
    [expires_at < now <= expires_at + grace period].  For an active
    subscription that started in the past and expired one day ago, a grace
    period of 7 days makes both [is_active] and [is_in_grace_period] true, and
    a grace period of 0 days makes both false. *)
Theorem grace_period_boundary (s : Subscription.t) (now : datetime) :
  (Subscription.is_in_grace_period s now = true <->
   exists e, Subscription.expires_at s = Some e
             /\ e < now
             /\ now <= e + timedelta_days (Subscription.grace_period_days s))
  /\ (Subscription.status s = ACTIVE ->
      Subscription.starts_at s < now ->
      Subscription.expires_at s = Some (now - timedelta_days 1) ->
      (Subscription.grace_period_days s = 7 ->
       Subscription.is_active s now = true
       /\ Subscription.is_in_grace_period s now = true)
      /\ (Subscription.grace_period_days s = 0 ->
          Subscription.is_active s now = false
          /\ Subscription.is_in_grace_period s now = false)).
Proof.
  split; [apply is_in_grace_period_iff|].
  intros Hs Ht He. unfold timedelta_days, microseconds_per_day in *.
  split; intros Hg.
  - split.
    + unfold Subscription.is_active. rewrite Hs, He, Hg. cbn [status_eqb negb].
      replace (now <? Subscription.starts_at s) with false
        by (symmetry; apply Z.ltb_ge; lia).
      cbv zeta. rewrite Z.gtb_ltb.
      match goal with
      | |- (if ?a <? ?b then _ else _) = _ => destruct (Z.ltb_spec a b)
      end; [|reflexivity].
      unfold timedelta_days, microseconds_per_day in *. lia.
    + apply is_in_grace_period_iff. eexists. split; [exact He|]. rewrite Hg.
      unfold timedelta_days, microseconds_per_day. lia.
  - split.
    + unfold Subscription.is_active. rewrite Hs, He, Hg. cbn [status_eqb negb].
      replace (now <? Subscription.starts_at s) with false
        by (symmetry; apply Z.ltb_ge; lia).
      cbv zeta. rewrite Z.gtb_ltb.
      match goal with
      | |- (if ?a <? ?b then _ else _) = _ => destruct (Z.ltb_spec a b)
      end; [reflexivity|].
      unfold timedelta_days, microseconds_per_day in *. lia.
    + destruct (Subscription.is_in_grace_period s now) eqn:E; [|reflexivity].
      exfalso. apply is_in_grace_period_iff in E as (e & H & _ & Hle).
      rewrite He in H. inversion H; subst. rewrite Hg in Hle.
      unfold timedelta_days, microseconds_per_day in Hle. lia.
Qed.

(** The boundary of C6 on rows of the [subscriptions] table. *)
Example grace_period_seven_days :
  let s := demo_subscription ACTIVE (Some (demo_now - timedelta_days 1)) 1 7 [] in
  Subscription.is_active s demo_now = true
  /\ Subscription.is_in_grace_period s demo_now = true.
Proof. split; reflexivity. Qed.

Example grace_period_zero_days :
  let s := demo_subscription ACTIVE (Some (demo_now - timedelta_days 1)) 1 0 [] in
  Subscription.is_active s demo_now = false
  /\ Subscription.is_in_grace_period s demo_now = false.
Proof. split; reflexivity. Qed.

(** ** Deactivation: [remove_device] *)

Lemma remove_device_result (s : Subscription.t) (device_id : string) (now : datetime) :
  match Subscription.lookup_device (Subscription.devices s) device_id with
  | Some (i, d) =>
      Subscription.remove_device s device_id now
      = (true,
         Subscription.with_updated_at now
           (Subscription.with_devices
              (<[i := Device.deactivate now d]> (Subscription.devices s)) s))
  | None => Subscription.remove_device s device_id now = (false, s)
  end.
Proof.
  unfold Subscription.remove_device.
  destruct (Subscription.lookup_device (Subscription.devices s) device_id)
    as [[i d]|]; reflexivity.
Qed.

Lemma lookup_device_after_insert (ds : list Device.t) (device_id : string) i d d' :
  Subscription.lookup_device ds device_id = Some (i, d) ->
  Device.device_id d' = device_id ->
  Subscription.lookup_device (<[i := d']> ds) device_id = Some (i, d').
Proof.
  revert i. induction ds as [|x rest IH]; intros i H Hid; simpl in H; [discriminate|].
  destruct (String.eqb (Device.device_id x) device_id) eqn:E.
  - injection H as Hi Hd. subst i d. simpl. rewrite Hid, String.eqb_refl. reflexivity.
  - destruct (Subscription.lookup_device rest device_id) as [[i' x']|] eqn:L;
      [|discriminate].
    injection H as Hi Hd. subst i x'. simpl. rewrite E.
    rewrite (IH i' eq_refl Hid). reflexivity.
Qed.

(** C10.  [remove_device] returns true exactly when some device of the list
    has the given client device id, whatever its active flag, so a second
    removal of the same id returns true again; only the first device with that
    id is changed (its active flag becomes false).  [deactivate_device]
    returns that boolean for the subscription resolved from the licence key,
    once the save of the aggregate has succeeded. *)
Theorem remove_device_returns_found
    (s : Subscription.t) (device_id : string) (now now' : datetime) :
  (fst (Subscription.remove_device s device_id now) = true <->
   exists d, In d (Subscription.devices s) /\ Device.device_id d = device_id)
  /\ (fst (Subscription.remove_device s device_id now) = true ->
      fst (Subscription.remove_device
             (snd (Subscription.remove_device s device_id now)) device_id now') = true)
  /\ (fst (Subscription.remove_device s device_id now) = true ->
      exists i d,
        Subscription.devices s !! i = Some d
        /\ Device.device_id d = device_id
        /\ (forall j d', (j < i)%nat -> Subscription.devices s !! j = Some d' ->
                         Device.device_id d' <> device_id)
        /\ Subscription.devices (snd (Subscription.remove_device s device_id now))
           = <[i := Device.deactivate now d]> (Subscription.devices s)
        /\ Subscription.devices (snd (Subscription.remove_device s device_id now)) !! i
           = Some (Device.deactivate now d)
        /\ Device.is_active (Device.deactivate now d) = false
        /\ forall j, j <> i ->
             Subscription.devices (snd (Subscription.remove_device s device_id now)) !! j
             = Subscription.devices s !! j)
  /\ (forall (Store : Type) (subscription_repo : ISubscriptionRepository Store)
        (w : @World Store) (license_key : string) saved st1,
        sub_get_by_license_key (store w) license_key = Ok (Some s) ->
        (exists d, In d (Subscription.devices s) /\ Device.device_id d = device_id) ->
        sub_update (store w) (snd (Subscription.remove_device s device_id now)) now
        = Ok (saved, st1) ->
        deactivate_device license_key device_id now w
        = Ok (true, mkWorld st1 (rng w))).
Proof.
  pose proof (remove_device_result s device_id now) as R.
  destruct (Subscription.lookup_device (Subscription.devices s) device_id)
    as [[i d]|] eqn:L.
  - rewrite R. simpl.
    destruct (lookup_device_Some _ _ _ _ L) as (H1 & H2 & H3).
    assert (Hfound : exists d0, In d0 (Subscription.devices s)
                                /\ Device.device_id d0 = device_id).
    { apply lookup_device_found. eauto. }
    split; [split; auto|]. split; [|split].
    + intros _. unfold Subscription.remove_device. simpl.
      rewrite (lookup_device_after_insert _ _ _ _ (Device.deactivate now d) L H2).
      reflexivity.
    + intros _. exists i, d. split; [exact H1|]. split; [exact H2|].
      split; [exact H3|]. split; [reflexivity|]. split.
      * apply list_lookup_insert_eq. apply lookup_lt_Some in H1. exact H1.
      * split; [reflexivity|]. intros j Hj. apply list_lookup_insert_ne. auto.
    + intros Store SR w key saved st1 Hget _ Hupd.
      unfold deactivate_device. rewrite Hget, R.
      simpl in Hupd. rewrite Hupd. reflexivity.
  - rewrite R. simpl.
    assert (Hnone : ~ exists d0, In d0 (Subscription.devices s)
                                 /\ Device.device_id d0 = device_id).
    { intros H. apply lookup_device_found in H as (i & d & H). congruence. }
    split; [split; [discriminate|intros H; contradiction]|].
    split; [discriminate|]. split; [discriminate|].
    intros Store SR w key saved st1 _ H. contradiction.
Qed.

(** Deactivating an already inactive device still reports it as found. *)
Example remove_device_twice :
  let s := demo_subscription ACTIVE None 1 7 [demo_device "d1" true] in
  let r1 := Subscription.remove_device s "d1" demo_now in
  let r2 := Subscription.remove_device (snd r1) "d1" (demo_now + 1) in
  fst r1 = true
  /\ List.map Device.is_active (Subscription.devices (snd r1)) = [false]
  /\ fst r2 = true
  /\ List.map Device.is_active (Subscription.devices (snd r2)) = [false].
Proof. repeat split. Qed.

(** ** Cancellation and resumption *)

Lemma resume_activates_all (s : Subscription.t) (now : datetime) :
  Subscription.status (Subscription.resume s now) = ACTIVE
  /\ Forall (fun d => Device.is_active d = true)
       (Subscription.devices (Subscription.resume s now)).
Proof.
  split; [reflexivity|]. simpl. apply List.Forall_forall. intros d Hd.
  apply in_map_iff in Hd as (x & <- & _).
  destruct (Device.is_active x) eqn:E; simpl; [exact E|reflexivity].
Qed.

(** C3 (the source departs from the claim).  A device whose active flag was
    false before [cancel] is active after the following [resume]: [resume]
    activates every device of the list. *)
Theorem resume_activates_device_inactive_before_cancel :
  let s := demo_subscription ACTIVE None 2 7
             [demo_device "d1" true; demo_device "d2" false] in
  let cancelled := Subscription.cancel s demo_now in
  let resumed := Subscription.resume cancelled (demo_now + 1) in
  List.map Device.is_active (Subscription.devices s) = [true; false]
  /\ Subscription.status cancelled = CANCELLED
  /\ List.map Device.is_active (Subscription.devices cancelled) = [false; false]
  /\ Subscription.status resumed = ACTIVE
  /\ List.map Device.is_active (Subscription.devices resumed) = [true; true].
Proof. repeat split. Qed.

(** ** Text lemmas *)

Lemma str_forall_of_list (p : ascii -> bool) (l : list ascii) :
  str_forall p (string_of_list_ascii l) = forallb p l.
Proof. induction l as [|c l IH]; simpl; [reflexivity|]. rewrite IH. reflexivity. Qed.

Lemma str_length_of_list (l : list ascii) :
  String.length (string_of_list_ascii l) = length l.
Proof. induction l as [|c l IH]; simpl; [reflexivity|]. rewrite IH. reflexivity. Qed.

Lemma str_forall_take (p : ascii -> bool) (n : nat) (s : string) :
  str_forall p s = true -> str_forall p (str_take n s) = true.
Proof.
  revert s. induction n as [|n IH]; intros [|c s] H; simpl; try reflexivity.
  simpl in H. apply andb_true_iff in H as [H1 H2]. rewrite H1. simpl. auto.
Qed.

Lemma str_length_take (n : nat) (s : string) :
  (n <= String.length s)%nat -> String.length (str_take n s) = n.
Proof.
  revert s. induction n as [|n IH]; intros [|c s] H; simpl in *; try reflexivity; try lia.
  rewrite IH; [reflexivity|lia].
Qed.

Lemma str_forall_map (p q : ascii -> bool) (f : ascii -> ascii) (s : string) :
  (forall c, p c = true -> q (f c) = true) ->
  str_forall p s = true -> str_forall q (str_map f s) = true.
Proof.
  intros Hf. induction s as [|c s IH]; simpl; [reflexivity|]. intros H.
  apply andb_true_iff in H as [H1 H2]. rewrite (Hf c H1). simpl. auto.
Qed.

Lemma str_length_map (f : ascii -> ascii) (s : string) :
  String.length (str_map f s) = String.length s.
Proof. induction s as [|c s IH]; simpl; [reflexivity|]. rewrite IH. reflexivity. Qed.

Lemma str_forall_weaken (p q : ascii -> bool) (s : string) :
  (forall c, p c = true -> q c = true) ->
  str_forall p s = true -> str_forall q s = true.
Proof.
  intros Hpq. induction s as [|c s IH]; simpl; [reflexivity|]. intros H.
  apply andb_true_iff in H as [H1 H2]. rewrite (Hpq c H1). simpl. auto.
Qed.

(** A segment without the separator is not cut by [split]. *)
Lemma split_no_sep (sep : ascii) (s : string) :
  str_forall (fun c => negb (Ascii.eqb c sep)) s = true -> split sep s = [s].
Proof.
  induction s as [|c s IH]; simpl; [reflexivity|]. intros H.
  apply andb_true_iff in H as [H1 H2]. apply negb_true_iff in H1. rewrite H1.
  rewrite (IH H2). reflexivity.
Qed.

Lemma split_app_sep (sep : ascii) (s t : string) :
  str_forall (fun c => negb (Ascii.eqb c sep)) s = true ->
  split sep (s +:+ String sep t) = s :: split sep t.
Proof.
  unfold String.append.
  induction s as [|c s IH]; cbn [str_forall String.append split].
  - intros _. rewrite Ascii.eqb_refl. reflexivity.
  - intros H. apply andb_true_iff in H as [H1 H2]. apply negb_true_iff in H1.
    rewrite H1. rewrite (IH H2). reflexivity.
Qed.

(** ** URL-safe base64 lemmas *)

Lemma b64_char_url (x : Z) : url_char (b64_char x) = true.
Proof.
  unfold b64_char.
  destruct (nth_in_or_default (Z.to_nat (Z.land x 63)) b64_alphabet "A"%char) as [H|H].
  - assert (A : forallb url_char b64_alphabet = true) by (vm_compute; reflexivity).
    rewrite forallb_forall in A. apply A. exact H.
  - rewrite H. reflexivity.
Qed.

Lemma list_ind3 {A : Type} (P : list A -> Prop) :
  P [] -> (forall a, P [a]) -> (forall a b, P [a; b]) ->
  (forall a b c l, P l -> P (a :: b :: c :: l)) ->
  forall l, P l.
Proof.
  intros H0 H1 H2 H3 l.
  assert (H : P l /\ (forall a, P (a :: l)) /\ (forall a b, P (a :: b :: l))).
  { induction l as [|x l (IH1 & IH2 & IH3)]; [auto|].
    split; [apply IH2|]. split; [intros a; apply IH3|].
    intros a b. apply H3. exact IH1. }
  exact (proj1 H).
Qed.

Lemma urlsafe_b64encode_shape (bs : list Z) :
  exists body k,
    urlsafe_b64encode bs = (body ++ repeat "="%char k)%list
    /\ forallb url_char body = true
    /\ (length bs <= length body)%nat.
Proof.
  induction bs as [|a|a b|a b c l (body & k & E & Hb & Hl)] using list_ind3.
  - exists [], O. auto.
  - eexists [_; _], 2%nat. simpl. rewrite !b64_char_url. auto.
  - eexists [_; _; _], 1%nat. simpl. rewrite !b64_char_url. auto.
  - eexists (_ :: _ :: _ :: _ :: body), k.
    cbn [urlsafe_b64encode]. cbv zeta. rewrite E. simpl.
    rewrite !b64_char_url, Hb. split; [reflexivity|]. split; [reflexivity|lia].
Qed.

Lemma rstrip_eq_padding (k : nat) : rstrip_eq (repeat "="%char k) = [].
Proof. induction k as [|k IH]; simpl; [reflexivity|]. rewrite IH. reflexivity. Qed.

Lemma rstrip_eq_body (body : list ascii) (k : nat) :
  forallb url_char body = true ->
  rstrip_eq (body ++ repeat "="%char k) = body.
Proof.
  induction body as [|c body IH]; simpl; [intros _; apply rstrip_eq_padding|].
  intros H. apply andb_true_iff in H as [Hc Hb]. rewrite (IH Hb).
  destruct body as [|c' body']; [|reflexivity].
  destruct (Ascii.eqb c "=") eqn:E; [|reflexivity].
  apply Ascii.eqb_eq in E. subst c. discriminate Hc.
Qed.

Lemma token_urlsafe_shape (n : Z) (e : entropy) :
  0 <= n ->
  exists tok,
    token_urlsafe n e = Ok (tok, snd (urandom (Z.to_nat n) e))
    /\ str_forall url_char tok = true
    /\ (Z.to_nat n <= String.length tok)%nat.
Proof.
  intros Hn. unfold token_urlsafe.
  destruct (n <? 0) eqn:E; [apply Z.ltb_lt in E; lia|].
  destruct (urandom (Z.to_nat n) e) as [tok e'] eqn:U.
  destruct (urlsafe_b64encode_shape tok) as (body & k & Eb & Hb & Hl).
  exists (string_of_list_ascii body). rewrite Eb, (rstrip_eq_body _ _ Hb).
  split; [reflexivity|]. rewrite str_forall_of_list, str_length_of_list.
  split; [exact Hb|].
  assert (length tok = Z.to_nat n).
  { unfold urandom in U. inversion U. rewrite length_map, length_seq. reflexivity. }
  lia.
Qed.

(** ** Licence key format *)

Lemma key_char_of_url_char (c : ascii) :
  url_char c = true ->
  key_char
    ((fun c => if Ascii.eqb c "_" then "1"%char else c)
       ((fun c => if Ascii.eqb c "-" then "0"%char else c) (char_upper c))) = true.
Proof.
  destruct c as [[] [] [] [] [] [] [] []]; vm_compute; intros H;
    first [reflexivity | discriminate H].
Qed.

Lemma key_char_not_dash (c : ascii) :
  key_char c = true -> negb (Ascii.eqb c "-") = true.
Proof.
  destruct c as [[] [] [] [] [] [] [] []]; vm_compute; intros H;
    first [reflexivity | discriminate H].
Qed.

Lemma key_char_isalnum (c : ascii) : key_char c = true -> char_isalnum c = true.
Proof.
  destruct c as [[] [] [] [] [] [] [] []]; vm_compute; intros H;
    first [reflexivity | discriminate H].
Qed.

Lemma key_part_shape (n : Z) (e : entropy) :
  0 <= n ->
  exists part,
    LicenseKeyGenerator.key_part n e = Ok (part, snd (urandom (Z.to_nat n) e))
    /\ key_segment (Z.to_nat n) part.
Proof.
  intros Hn. unfold LicenseKeyGenerator.key_part.
  destruct (token_urlsafe_shape n e Hn) as (tok & E & Hc & Hl). rewrite E.
  eexists. split; [reflexivity|]. split.
  - unfold replace_char, upper.
    apply (str_forall_map
             (fun c => key_char (if Ascii.eqb c "_" then "1"%char else c))).
    { intros c H. exact H. }
    apply (str_forall_map
             (fun c => key_char
                         ((fun c => if Ascii.eqb c "_" then "1"%char else c)
                            (if Ascii.eqb c "-" then "0"%char else c)))).
    { intros c H. exact H. }
    apply (str_forall_map url_char); [exact key_char_of_url_char|].
    apply str_forall_take. exact Hc.
  - unfold replace_char, upper. rewrite !str_length_map.
    apply str_length_take. exact Hl.
Qed.

Lemma key_parts_shape (rounds : nat) (n : Z) (e : entropy) :
  0 <= n ->
  exists parts e',
    LicenseKeyGenerator.key_parts rounds n e = Ok (parts, e')
    /\ length parts = rounds
    /\ Forall (key_segment (Z.to_nat n)) parts.
Proof.
  intros Hn. revert e. induction rounds as [|k IH]; intros e; simpl.
  - exists [], e. auto.
  - destruct (key_part_shape n e Hn) as (part & E & Hp). rewrite E.
    destruct (IH (snd (urandom (Z.to_nat n) e))) as (parts & e' & E' & Hlen & Hall).
    rewrite E'. exists (part :: parts), e'.
    split; [reflexivity|]. split; [simpl; lia|]. constructor; assumption.
Qed.

Lemma key_segment_no_dash (n : nat) (part : string) :
  key_segment n part ->
  str_forall (fun c => negb (Ascii.eqb c "-")) part = true.
Proof.
  intros [H _]. apply (str_forall_weaken key_char); [exact key_char_not_dash|exact H].
Qed.

Lemma key_segment_accepted (n : nat) (part : string) :
  (4 <= n)%nat -> key_segment n part ->
  negb (negb (isalnum part) || (Z.of_nat (String.length part) <? 4)) = true.
Proof.
  intros Hn [Hc Hl].
  assert (Ha : isalnum part = true).
  { unfold isalnum. destruct part as [|c part]; [simpl in Hl; lia|].
    apply (str_forall_weaken key_char); [exact key_char_isalnum|exact Hc]. }
  rewrite Ha. simpl. apply negb_true_iff. apply Z.ltb_ge. lia.
Qed.

(** C7 (as amended).  With the prefix ["FL"] and a key length of at least 21
    (the default setting is 32), whatever the random source returns,
    [generate_license_key] produces a key that [validate_license_key_format]
    accepts: the key has five dash-separated segments, the first is ["FL"] and
    the other four are digits and upper-case letters, each of the same length,
    at least 4.  ["FL-AB"] is rejected. *)
Theorem generated_FL_key_is_valid
    (settings : Settings) (length : option Z) (e : entropy) :
  21 <= match length with
        | None => license_key_length settings
        | Some l => l
        end ->
  exists key e' p1 p2 p3 p4 n,
    LicenseKeyGenerator.generate_license_key settings "FL" length e = Ok (key, e')
    /\ LicenseKeyGenerator.validate_license_key_format key = true
    /\ split "-" key = ["FL"; p1; p2; p3; p4]
    /\ (4 <= n)%nat
    /\ Forall (key_segment n) [p1; p2; p3; p4]
    /\ LicenseKeyGenerator.validate_license_key_format "FL-AB" = false.
Proof.
  intros Hlen. unfold LicenseKeyGenerator.generate_license_key.
  set (L := match length with
            | None => license_key_length settings
            | Some l => l
            end) in *.
  set (n := (L - Z.of_nat (String.length "FL") - 3) / 4).
  assert (Hn : 4 <= n).
  { unfold n. simpl String.length. apply Z.div_le_lower_bound; lia. }
  destruct (key_parts_shape 4 n e ltac:(lia)) as (parts & e' & E & Hl & Hall).
  rewrite E.
  destruct parts as [|p1 [|p2 [|p3 [|p4 [|]]]]]; simpl in Hl; try lia.
  assert (Hn' : (4 <= Z.to_nat n)%nat) by lia.
  exists ("FL" +:+ "-" +:+ String.concat "-" [p1; p2; p3; p4]), e', p1, p2, p3, p4,
    (Z.to_nat n).
  split; [reflexivity|].
  inversion Hall as [|? ? H1 Hall1]; subst.
  inversion Hall1 as [|? ? H2 Hall2]; subst.
  inversion Hall2 as [|? ? H3 Hall3]; subst.
  inversion Hall3 as [|? ? H4 _]; subst.
  assert (Hs : split "-" ("FL" +:+ "-" +:+ String.concat "-" [p1; p2; p3; p4])
               = ["FL"; p1; p2; p3; p4]).
  { change (split "-"
              ("FL" +:+ String "-"
                 (p1 +:+ String "-" (p2 +:+ String "-" (p3 +:+ String "-" p4))))
            = ["FL"; p1; p2; p3; p4]).
    rewrite (split_app_sep "-" "FL" _ eq_refl).
    rewrite (split_app_sep "-" p1 _ (key_segment_no_dash _ _ H1)).
    rewrite (split_app_sep "-" p2 _ (key_segment_no_dash _ _ H2)).
    rewrite (split_app_sep "-" p3 _ (key_segment_no_dash _ _ H3)).
    rewrite (split_no_sep "-" p4 (key_segment_no_dash _ _ H4)).
    reflexivity. }
  split; [|split; [exact Hs|split; [exact Hn'|split; [exact Hall|reflexivity]]]].
  unfold LicenseKeyGenerator.validate_license_key_format.
  rewrite Hs. cbn [String.append]. cbn -[isalnum Z.ltb Z.of_nat].
  rewrite (key_segment_accepted _ _ Hn' H1), (key_segment_accepted _ _ Hn' H2),
    (key_segment_accepted _ _ Hn' H3), (key_segment_accepted _ _ Hn' H4).
  reflexivity.
Qed.

(** The amended C7 at the default settings. *)
Lemma generated_FL_key_is_valid_default :
  exists key e' p1 p2 p3 p4 n,
    LicenseKeyGenerator.generate_license_key default_settings "FL" None demo_entropy
    = Ok (key, e')
    /\ LicenseKeyGenerator.validate_license_key_format key = true
    /\ split "-" key = ["FL"; p1; p2; p3; p4]
    /\ (4 <= n)%nat
    /\ Forall (key_segment n) [p1; p2; p3; p4]
    /\ LicenseKeyGenerator.validate_license_key_format "FL-AB" = false.
Proof.
  apply (generated_FL_key_is_valid default_settings None demo_entropy).
  simpl. lia.
Defined.

(** C7 as stated fails: a key generated with another prefix is rejected. *)
Lemma generated_XX_key_is_rejected :
  exists key e',
    LicenseKeyGenerator.generate_license_key default_settings "XX" None demo_entropy
    = Ok (key, e')
    /\ key = "XX-CZBVEP-6Q4ZWH-X0WRNL-PCRVFD"
    /\ LicenseKeyGenerator.validate_license_key_format key = false.
Proof.
  eexists _, _. split; [reflexivity|]. split; vm_compute; reflexivity.
Qed.

(** ** Token round trip *)





(** ** Validation through the service *)




(** ** Activation through the service *)





(** ** Repeated activation *)

Lemma generate_subscription_token_succeeds
    (scheme : SignatureScheme) (settings : Settings) (jm : @JWTManager scheme)
    (sk : private_key) (s : Subscription.t) (device_id : string)
    (now : datetime) (e : entropy) :
  _private_key jm = Some sk ->
  exists tok,
    generate_subscription_token settings jm
      (Subscription.to_token_payload s device_id) now e
    = Ok (tok, snd (urandom 16 e)).
Proof.
  intros Hsk. unfold generate_subscription_token, build_subscription_token.
  rewrite Hsk.
  destruct (token_urlsafe_shape 16 e ltac:(lia)) as (jti_text & E & _ & _).
  unfold Subscription.to_token_payload. cbn [td_expires_at].
  destruct (Subscription.expires_at s); cbn [isoformat]; rewrite E;
    eexists; reflexivity.
Qed.

(** Whatever the repositories are: when the resolved aggregate already holds
    an active device with the given id and is not expired, activation answers
    ["already_active"], returns the aggregate as it was resolved, and leaves
    the store untouched. *)
Lemma activate_license_already_active
    (Store : Type) (subscription_repo : ISubscriptionRepository Store)
    (device_repo : IDeviceRepository Store) (scheme : SignatureScheme)
    (settings : Settings) (security_manager : @JWTManager scheme)
    (sk : private_key)
    (license_key device_id : string) (device_info : option DeviceInfo)
    (now : datetime) (w : @World Store) (s : Subscription.t) (device : Device.t) :
  _private_key security_manager = Some sk ->
  sub_get_by_license_key (store w) license_key = Ok (Some s) ->
  Subscription.is_expired s now = false ->
  Subscription.get_device s device_id = Some device ->
  Device.is_active device = true ->
  exists r,
    activate_license settings security_manager license_key device_id device_info now w
    = Ok (r, mkWorld (store w) (snd (urandom 16 (rng w))))
    /\ a_action r = "already_active"
    /\ a_device r = device
    /\ a_subscription r = s.
Proof.
  intros Hsk Hget Hexp Hdev Hact.
  unfold activate_license, Subscription.validate_for_activation.
  rewrite Hget, Hexp. unfold Subscription.get_device in Hdev.
  destruct (Subscription.lookup_device (Subscription.devices s) device_id)
    as [[i d]|]; [|discriminate].
  inversion Hdev; subst d. rewrite Hact.
  cbn [check_action check_device check_message String.eqb Ascii.eqb Bool.eqb].
  destruct (generate_subscription_token_succeeds scheme settings security_manager
              sk s device_id now (rng w) Hsk) as (tok & E).
  cbn [rng store]. rewrite E. eexists. split; [reflexivity|]. auto.
Qed.


(** * Further properties of the modelled code *)

(** ** Feature sets *)

(** Overrides win over tier defaults, names that neither map knows read as
    [False] through [has_feature] and as [0] through [get_limit], and no
    overrides is the same as empty overrides. *)
Theorem feature_overrides_take_precedence
    (tier : SubscriptionTier) (custom : gmap string feature_value) (name : string) :
  let fs := FeatureSet.init tier (Some custom) in
  (forall v, custom !! name = Some v ->
             FeatureSet.has_feature fs name = v /\ FeatureSet.get_limit fs name = v)
  /\ (forall v, custom !! name = None ->
                FeatureSet.TIER_FEATURES tier !! name = Some v ->
                FeatureSet.has_feature fs name = v /\ FeatureSet.get_limit fs name = v)
  /\ (custom !! name = None -> FeatureSet.TIER_FEATURES tier !! name = None ->
      FeatureSet.has_feature fs name = FBool false
      /\ FeatureSet.get_limit fs name = FInt 0)
  /\ FeatureSet.init tier None = FeatureSet.init tier (Some ∅).
Proof.
  unfold FeatureSet.has_feature, FeatureSet.get_limit, FeatureSet.init. simpl.
  split; [|split; [|split]].
  - intros v H. rewrite (lookup_union_Some_l _ _ _ _ H). auto.
  - intros v H Ht. rewrite (lookup_union_r _ _ _ H), Ht. auto.
  - intros H Ht. rewrite (lookup_union_r _ _ _ H), Ht. auto.
  - rewrite (left_id_L ∅ (∪)). reflexivity.
Qed.

(** ** Days until expiry *)

(** [days_until_expiry] is absent exactly for a subscription without expiry,
    is never negative, is 0 from one day before the expiry onwards (also
    after it), and otherwise counts the whole days left. *)
Theorem days_until_expiry_counts_whole_days (s : Subscription.t) (now : datetime) :
  (Subscription.days_until_expiry s now = None <-> Subscription.expires_at s = None)
  /\ (forall d, Subscription.days_until_expiry s now = Some d -> 0 <= d)
  /\ (forall e, Subscription.expires_at s = Some e ->
                e < now + timedelta_days 1 ->
                Subscription.days_until_expiry s now = Some 0)
  /\ (forall e k, Subscription.expires_at s = Some e -> 0 <= k ->
                  now + timedelta_days k <= e < now + timedelta_days (k + 1) ->
                  Subscription.days_until_expiry s now = Some k).
Proof.
  unfold Subscription.days_until_expiry, timedelta_get_days, timedelta_days,
    microseconds_per_day.
  destruct (Subscription.expires_at s) as [e0|].
  - split; [split; discriminate|]. split; [|split].
    + intros d H. inversion H. lia.
    + intros e H Hlt. inversion H; subst e0. f_equal.
      assert ((e - now) / (86400 * 1000000) < 1)
        by (apply Z.div_lt_upper_bound; lia).
      lia.
    + intros e k H Hk [Hlo Hhi]. inversion H; subst e0. f_equal.
      assert ((e - now) / (86400 * 1000000) < k + 1)
        by (apply Z.div_lt_upper_bound; lia).
      assert (k <= (e - now) / (86400 * 1000000))
        by (apply Z.div_le_lower_bound; lia).
      lia.
  - split; [split; reflexivity|]. split; [discriminate|].
    split; intros; discriminate.
Qed.

(** ** Extending the expiry *)

(** [extend_expiry] either moves the expiry or raises [OverflowError].  With
    the old expiry, or the clock when none is set, as the base: when the days
    are at most 999999999 in magnitude and the base plus the days is a
    datetime, the new expiry is that sum, [updated_at] is the clock, and
    status, devices and the device limit are untouched; otherwise the call
    raises.  Two extensions that both succeed add up. *)
Theorem extend_expiry_shifts_expiry
    (s : Subscription.t) (days more : Z) (now later : datetime) :
  let base :=
    match Subscription.expires_at s with
    | Some e => e
    | None => now
    end in
  let in_range :=
    Z.abs days <= 999999999
    /\ datetime_min <= base + timedelta_days days <= datetime_max in
  (in_range ->
   exists s1,
     Subscription.extend_expiry s days now = Ok s1
     /\ Subscription.expires_at s1 = Some (base + timedelta_days days)
     /\ Subscription.updated_at s1 = now
     /\ Subscription.status s1 = Subscription.status s
     /\ Subscription.devices s1 = Subscription.devices s
     /\ Subscription.max_devices s1 = Subscription.max_devices s)
  /\ (~ in_range ->
      exists x,
        Subscription.extend_expiry s days now = Raise x
        /\ Exn.cls x = Exn.OverflowError)
  /\ (forall s1 s2,
        Subscription.extend_expiry s days now = Ok s1 ->
        Subscription.extend_expiry s1 more later = Ok s2 ->
        Subscription.expires_at s2 = Some (base + timedelta_days (days + more))).
Proof.
  intros base in_range.
  assert (Hstep : forall (s0 : Subscription.t) (n : Z) (t0 : datetime),
            Subscription.extend_expiry s0 n t0
            = match
                match timedelta_checked n with
                | Raise x => Raise x
                | Ok delta =>
                    datetime_add
                      match Subscription.expires_at s0 with
                      | Some e => e
                      | None => t0
                      end delta
                end
              with
              | Raise x => Raise x
              | Ok e =>
                  Ok (Subscription.with_updated_at t0
                        (Subscription.with_expires_at (Some e) s0))
              end).
  { intros s0 n t0. unfold Subscription.extend_expiry.
    destruct (Subscription.expires_at s0); reflexivity. }
  assert (Hok : forall (s0 s1 : Subscription.t) (n : Z) (t0 : datetime),
            Subscription.extend_expiry s0 n t0 = Ok s1 ->
            Subscription.expires_at s1
            = Some (match Subscription.expires_at s0 with
                    | Some e => e
                    | None => t0
                    end + timedelta_days n)).
  { intros s0 s1 n t0. rewrite Hstep.
    destruct (add_days_cases
                match Subscription.expires_at s0 with
                | Some e => e
                | None => t0
                end n) as [(_ & _ & Hd & Ha)|(_ & x & Hx & _)].
    - rewrite Hd, Ha. intros H. inversion H. reflexivity.
    - rewrite Hx. discriminate. }
  split; [|split].
  - intros [Hn Hr]. rewrite Hstep. fold base.
    rewrite (timedelta_checked_Ok _ Hn), (datetime_add_Ok _ _ Hr).
    eexists. split; [reflexivity|]. cbn. auto.
  - intros Hbad. rewrite Hstep. fold base.
    destruct (add_days_cases base days) as [(Hn & Hr & _)|(_ & x & Hx & Hc)].
    + exfalso. apply Hbad. split; assumption.
    + rewrite Hx. exists x. auto.
  - intros s1 s2 H1 H2.
    assert (H1' : Subscription.expires_at s1 = Some (base + timedelta_days days))
      by (apply Hok in H1; exact H1).
    apply Hok in H2. rewrite H1' in H2. cbv beta iota in H2. rewrite H2.
    f_equal. clearbody base. unfold datetime in base.
    unfold timedelta_days, microseconds_per_day. lia.
Qed.

(** An expiry ten days ahead is moved by thirty days; an expiry on 9999-12-31
    cannot be moved by one day. *)
Lemma extend_expiry_shifts_expiry_demo :
  (exists s1,
     Subscription.extend_expiry
       (demo_subscription ACTIVE (Some (demo_now + timedelta_days 10)) 1 7 [])
       30 demo_now = Ok s1
     /\ Subscription.expires_at s1
        = Some (demo_now + timedelta_days 10 + timedelta_days 30)
     /\ Subscription.updated_at s1 = demo_now
     /\ Subscription.status s1 = ACTIVE
     /\ Subscription.devices s1 = []
     /\ Subscription.max_devices s1 = 1)
  /\ exists x,
       Subscription.extend_expiry
         (demo_subscription ACTIVE (Some (253402214400 * 1000000)) 1 7 [])
         1 demo_now = Raise x
       /\ Exn.cls x = Exn.OverflowError.
Proof.
  split.
  - apply (proj1 (extend_expiry_shifts_expiry
                    (demo_subscription ACTIVE
                       (Some (demo_now + timedelta_days 10)) 1 7 [])
                    30 0 demo_now demo_now)).
    vm_compute. repeat split; discriminate.
  - apply (proj1 (proj2 (extend_expiry_shifts_expiry
                           (demo_subscription ACTIVE
                              (Some (253402214400 * 1000000)) 1 7 [])
                           1 0 demo_now demo_now))).
    vm_compute. intros (_ & _ & H). apply H. reflexivity.
Defined.

(** ** Cancelling and suspending *)

Lemma lookup_device_map (f : Device.t -> Device.t) (ds : list Device.t)
    (device_id : string) :
  (forall d, Device.device_id (f d) = Device.device_id d) ->
  Subscription.lookup_device (List.map f ds) device_id
  = match Subscription.lookup_device ds device_id with
    | Some (i, d) => Some (i, f d)
    | None => None
    end.
Proof.
  intros Hf. induction ds as [|x rest IH]; simpl; [reflexivity|].
  rewrite Hf. destruct (String.eqb (Device.device_id x) device_id); [reflexivity|].
  rewrite IH. destruct (Subscription.lookup_device rest device_id) as [[i d]|];
    reflexivity.
Qed.

(** [cancel] marks the subscription cancelled and switches every device off
    without dropping any: the devices keep their ids, client ids and order,
    none counts as active, a device is still found by its client id, and the
    subscription is unusable at every instant. *)
Theorem cancel_deactivates_and_keeps_devices
    (s : Subscription.t) (now t : datetime) (device_id : string) :
  let c := Subscription.cancel s now in
  Subscription.status c = CANCELLED
  /\ Forall (fun d => Device.is_active d = false) (Subscription.devices c)
  /\ List.map Device.id (Subscription.devices c)
     = List.map Device.id (Subscription.devices s)
  /\ List.map Device.device_id (Subscription.devices c)
     = List.map Device.device_id (Subscription.devices s)
  /\ Subscription.active_devices c = []
  /\ Subscription.get_device c device_id
     = match Subscription.get_device s device_id with
       | Some d => Some (Device.deactivate now d)
       | None => None
       end
  /\ Subscription.is_active c t = false.
Proof.
  simpl. split; [reflexivity|]. split.
  { apply List.Forall_forall. intros d Hd. apply in_map_iff in Hd as (x & <- & _).
    reflexivity. }
  split; [rewrite List.map_map; reflexivity|].
  split; [rewrite List.map_map; reflexivity|].
  split.
  { unfold Subscription.active_devices. simpl.
    induction (Subscription.devices s) as [|x rest IH]; simpl; [reflexivity|exact IH]. }
  split; [|reflexivity].
  unfold Subscription.get_device. simpl.
  rewrite (lookup_device_map (Device.deactivate now)) by reflexivity.
  destruct (Subscription.lookup_device (Subscription.devices s) device_id)
    as [[i d]|]; reflexivity.
Qed.

(** [suspend] makes the subscription unusable at every instant and leaves the
    devices as they are; a following [activate] leaves them as they are too
    and gives an active subscription the usability it had before. *)
Theorem suspend_then_activate_restores
    (s : Subscription.t) (t1 t2 now : datetime) :
  Subscription.devices (Subscription.suspend s t1) = Subscription.devices s
  /\ Subscription.is_active (Subscription.suspend s t1) now = false
  /\ Subscription.devices (Subscription.activate (Subscription.suspend s t1) t2)
     = Subscription.devices s
  /\ Subscription.status (Subscription.activate (Subscription.suspend s t1) t2)
     = ACTIVE
  /\ (Subscription.status s = ACTIVE ->
      Subscription.is_active (Subscription.activate (Subscription.suspend s t1) t2) now
      = Subscription.is_active s now).
Proof.
  split; [reflexivity|]. split; [reflexivity|]. split; [reflexivity|].
  split; [reflexivity|]. intros Hs. unfold Subscription.is_active. simpl.
  rewrite Hs. reflexivity.
Qed.

(** ** Device slots *)


Lemma active_count_after_deactivate (ds : list Device.t) i d (now : datetime) :
  ds !! i = Some d -> Device.is_active d = true ->
  S (length (List.filter Device.is_active (<[i := Device.deactivate now d]> ds)))
  = length (List.filter Device.is_active ds).
Proof.
  revert i. induction ds as [|x rest IH]; intros [|i] H Hd; simpl in *;
    try discriminate.
  - inversion H; subst x. rewrite Hd. reflexivity.
  - destruct (Device.is_active x); simpl; rewrite <- (IH i H Hd); reflexivity.
Qed.





Lemma active_count_after_deactivate_le (ds : list Device.t) i d (now : datetime) :
  ds !! i = Some d ->
  (length (List.filter Device.is_active (<[i := Device.deactivate now d]> ds))
   <= length (List.filter Device.is_active ds))%nat.
Proof.
  revert i. induction ds as [|x rest IH]; intros [|i] H; simpl in *;
    try discriminate.
  - inversion H; subst x. destruct (Device.is_active d); simpl; lia.
  - specialize (IH i H). destruct (Device.is_active x); simpl; lia.
Qed.

(** While the number of active devices is within [max_devices], a successful
    [add_device] and any [remove_device] keep it there: adding is refused
    when the limit is reached, and removing never activates a device. *)
Theorem add_and_remove_keep_device_limit
    (s : Subscription.t) (device : Device.t) (device_id : string) (now : datetime) :
  Z.of_nat (length (Subscription.active_devices s)) <= Subscription.max_devices s ->
  (forall s' device',
     Subscription.add_device s device now = Ok (s', device') ->
     Z.of_nat (length (Subscription.active_devices s')) <= Subscription.max_devices s')
  /\ (let s' := snd (Subscription.remove_device s device_id now) in
      Z.of_nat (length (Subscription.active_devices s')) <= Subscription.max_devices s').
Proof.
  intros Hinv. split.
  - intros s' device'. unfold Subscription.add_device, Subscription.can_add_device.
    destruct (Z.of_nat (length (Subscription.active_devices s))
              <? Subscription.max_devices s) eqn:E; simpl; [|discriminate].
    intros H. inversion H; subst. apply Z.ltb_lt in E.
    unfold Subscription.active_devices in *. simpl.
    rewrite List.filter_app, length_app. simpl.
    destruct (Device.is_active device); simpl; lia.
  - pose proof (remove_device_result s device_id now) as R.
    destruct (Subscription.lookup_device (Subscription.devices s) device_id)
      as [[i d]|] eqn:L; rewrite R; simpl; [|exact Hinv].
    unfold Subscription.active_devices in *. simpl.
    pose proof (active_count_after_deactivate_le _ i d now
                  (proj1 (lookup_device_Some _ _ _ _ L))).
    lia.
Qed.

Lemma add_and_remove_keep_device_limit_demo :
  let s := demo_subscription ACTIVE None 2 7 [demo_device "d1" true] in
  (forall s' device',
     Subscription.add_device s (demo_device "d2" true) demo_now = Ok (s', device') ->
     Z.of_nat (length (Subscription.active_devices s')) <= Subscription.max_devices s')
  /\ (let s' := snd (Subscription.remove_device s "d1" demo_now) in
      Z.of_nat (length (Subscription.active_devices s')) <= Subscription.max_devices s').
Proof.
  apply (add_and_remove_keep_device_limit
           (demo_subscription ACTIVE None 2 7 [demo_device "d1" true])
           (demo_device "d2" true) "d1" demo_now).
  simpl. lia.
Defined.

(** Deactivating an active device frees its slot: when the active devices
    were within the limit, [add_device] succeeds right after [remove_device]
    has switched an active device off. *)
Theorem removed_slot_can_be_reused
    (s : Subscription.t) (device_id : string) (device : Device.t)
    (now later : datetime) i d :
  Z.of_nat (length (Subscription.active_devices s)) <= Subscription.max_devices s ->
  Subscription.lookup_device (Subscription.devices s) device_id = Some (i, d) ->
  Device.is_active d = true ->
  let s1 := snd (Subscription.remove_device s device_id now) in
  S (length (Subscription.active_devices s1)) = length (Subscription.active_devices s)
  /\ Subscription.can_add_device s1 = true
  /\ exists s2 device',
       Subscription.add_device s1 device later = Ok (s2, device')
       /\ Subscription.devices s2 = (Subscription.devices s1 ++ [device'])%list.
Proof.
  intros Hinv L Hd s1.
  pose proof (remove_device_result s device_id now) as R. rewrite L in R.
  assert (Hc : S (length (Subscription.active_devices s1))
               = length (Subscription.active_devices s)).
  { unfold s1. rewrite R. unfold Subscription.active_devices. simpl.
    apply active_count_after_deactivate; [|exact Hd].
    apply (lookup_device_Some _ _ _ _ L). }
  assert (Hm : Subscription.max_devices s1 = Subscription.max_devices s).
  { unfold s1. rewrite R. reflexivity. }
  assert (Ha : Subscription.can_add_device s1 = true).
  { unfold Subscription.can_add_device. apply Z.ltb_lt. rewrite Hm. lia. }
  split; [exact Hc|]. split; [exact Ha|].
  unfold Subscription.add_device. rewrite Ha. simpl. eexists _, _.
  split; reflexivity.
Qed.

(** The scenario of a single slot: the slot of ["d1"] is taken, ["d1"] is
    deactivated, another device is added. *)
Lemma removed_slot_can_be_reused_demo :
  let s := demo_subscription ACTIVE None 1 7 [demo_device "d1" true] in
  Subscription.can_add_device s = false
  /\ let s1 := snd (Subscription.remove_device s "d1" demo_now) in
     S (length (Subscription.active_devices s1)) = length (Subscription.active_devices s)
     /\ Subscription.can_add_device s1 = true
     /\ exists s2 device',
          Subscription.add_device s1 (demo_device "d2" true) (demo_now + 1)
          = Ok (s2, device')
          /\ Subscription.devices s2 = (Subscription.devices s1 ++ [device'])%list.
Proof.
  split; [reflexivity|].
  apply (removed_slot_can_be_reused
           (demo_subscription ACTIVE None 1 7 [demo_device "d1" true])
           "d1" (demo_device "d2" true) demo_now (demo_now + 1)
           O (demo_device "d1" true)).
  - simpl. lia.
  - reflexivity.
  - reflexivity.
Defined.

(** ** Adding and finding devices *)

Lemma lookup_device_app (ds : list Device.t) (x : Device.t) (device_id : string) :
  Subscription.lookup_device (ds ++ [x]) device_id
  = match Subscription.lookup_device ds device_id with
    | Some r => Some r
    | None =>
        if String.eqb (Device.device_id x) device_id then Some (length ds, x)
        else None
    end.
Proof.
  induction ds as [|y rest IH]; simpl.
  - destruct (String.eqb (Device.device_id x) device_id); reflexivity.
  - destruct (String.eqb (Device.device_id y) device_id); [reflexivity|].
    rewrite IH.
    destruct (Subscription.lookup_device rest device_id) as [[i d]|]; [reflexivity|].
    destruct (String.eqb (Device.device_id x) device_id); reflexivity.
Qed.

(** After a successful [add_device], [get_device] finds the added device by
    its client id unless an earlier device already carries that id, in which
    case the earlier device is the one found ([add_device] does not look for
    an existing id); every other client id resolves as before. *)
Theorem get_device_after_add_device
    (s s' : Subscription.t) (device device' : Device.t) (now : datetime) :
  Subscription.add_device s device now = Ok (s', device') ->
  Subscription.get_device s' (Device.device_id device)
  = match Subscription.get_device s (Device.device_id device) with
    | Some earlier => Some earlier
    | None => Some device'
    end
  /\ Device.device_id device' = Device.device_id device
  /\ forall other, other <> Device.device_id device ->
                   Subscription.get_device s' other = Subscription.get_device s other.
Proof.
  unfold Subscription.add_device.
  destruct (negb (Subscription.can_add_device s)); [discriminate|].
  intros H. inversion H; subst. unfold Subscription.get_device. simpl.
  rewrite !lookup_device_app. simpl. split; [|split; [reflexivity|]].
  - destruct (Subscription.lookup_device (Subscription.devices s)
                (Device.device_id device)) as [[i d]|]; [reflexivity|].
    rewrite String.eqb_refl. reflexivity.
  - intros other Hne. rewrite lookup_device_app. simpl.
    destruct (Subscription.lookup_device (Subscription.devices s) other)
      as [[i d]|]; [reflexivity|].
    destruct (String.eqb_spec (Device.device_id device) other); [congruence|].
    reflexivity.
Qed.

Lemma get_device_after_add_device_demo :
  let s := demo_subscription ACTIVE None 2 7 [demo_device "d1" true] in
  let added := Device.set_subscription_id (Subscription.id s) (demo_device "d2" true) in
  let s' := Subscription.with_updated_at demo_now
              (Subscription.with_devices [demo_device "d1" true; added] s) in
  Subscription.get_device s' "d2" = Some added
  /\ Device.device_id added = "d2"
  /\ forall other, other <> "d2" ->
                   Subscription.get_device s' other = Subscription.get_device s other.
Proof.
  exact (get_device_after_add_device
           (demo_subscription ACTIVE None 2 7 [demo_device "d1" true]) _
           (demo_device "d2" true) _ demo_now eq_refl).
Defined.

(** ** Licence keys for any prefix *)

Lemma str_length_app (a b : string) :
  String.length (a +:+ b) = (String.length a + String.length b)%nat.
Proof. induction a as [|c a IH]; simpl; [reflexivity|]. rewrite IH. reflexivity. Qed.

Lemma key_parts_stream (rounds : nat) (n : Z) (e : entropy) :
  0 <= n ->
  exists parts e',
    LicenseKeyGenerator.key_parts rounds n e = Ok (parts, e')
    /\ length parts = rounds
    /\ Forall (key_segment (Z.to_nat n)) parts
    /\ forall i, e' i = e (rounds * Z.to_nat n + i)%nat.
Proof.
  intros Hn. revert e. induction rounds as [|k IH]; intros e; simpl.
  - exists [], e. auto.
  - destruct (key_part_shape n e Hn) as (part & E & Hp). rewrite E.
    destruct (IH (snd (urandom (Z.to_nat n) e)))
      as (parts & e' & E' & Hlen & Hall & Hs).
    rewrite E'. exists (part :: parts), e'.
    split; [reflexivity|]. split; [simpl; lia|]. split; [constructor; assumption|].
    intros i. rewrite Hs. simpl. f_equal. lia.
Qed.

(** For every prefix and length setting, with
    [n = (length - len(prefix) - 3) // 4]: when [n] is negative
    [generate_license_key] raises [ValueError]; otherwise it returns a key of
    [len(prefix) + 4 + 4 * n] characters (the prefix, four dashes and four
    segments of [n] characters; not [length] characters), having read [4 * n]
    bytes from the random source. *)
Theorem generate_license_key_length
    (settings : Settings) (prefix : string) (length : option Z) (e : entropy) :
  let n := (match length with
            | None => license_key_length settings
            | Some l => l
            end - Z.of_nat (String.length prefix) - 3) / 4 in
  (n < 0 ->
   LicenseKeyGenerator.generate_license_key settings prefix length e
   = Raise (Exn.Value "negative argument not allowed"))
  /\ (0 <= n ->
      exists key e',
        LicenseKeyGenerator.generate_license_key settings prefix length e
        = Ok (key, e')
        /\ String.length key = (String.length prefix + 4 + 4 * Z.to_nat n)%nat
        /\ forall i, e' i = e (4 * Z.to_nat n + i)%nat).
Proof.
  intros n. unfold LicenseKeyGenerator.generate_license_key. fold n. split.
  - intros Hn. simpl. unfold LicenseKeyGenerator.key_part, token_urlsafe.
    apply Z.ltb_lt in Hn. rewrite Hn. reflexivity.
  - intros Hn.
    destruct (key_parts_stream 4 n e Hn) as (parts & e' & E & Hl & Hall & Hs).
    rewrite E. destruct parts as [|p1 [|p2 [|p3 [|p4 [|]]]]]; simpl in Hl; try lia.
    eexists _, _. split; [reflexivity|]. split; [|exact Hs].
    inversion Hall as [|? ? [_ H1] Hall1]; subst.
    inversion Hall1 as [|? ? [_ H2] Hall2]; subst.
    inversion Hall2 as [|? ? [_ H3] Hall3]; subst.
    inversion Hall3 as [|? ? [_ H4] _]; subst.
    cbn [String.concat]. rewrite !str_length_app. simpl String.length.
    rewrite H1, H2, H3, H4. lia.
Qed.

(** ** Accepted licence keys *)

Lemma split_nonempty (sep : ascii) (s : string) : split sep s <> [].
Proof.
  destruct s as [|c s]; simpl; [discriminate|].
  destruct (Ascii.eqb c sep); [discriminate|].
  destruct (split sep s); discriminate.
Qed.

(** Joining the pieces of [split] with the separator gives the text back. *)
Lemma concat_split (sep : ascii) (s : string) :
  String.concat (String sep EmptyString) (split sep s) = s.
Proof.
  induction s as [|c s IH]; simpl; [reflexivity|].
  pose proof (split_nonempty sep s) as Hne.
  destruct (Ascii.eqb c sep) eqn:E.
  - apply Ascii.eqb_eq in E. subst c.
    destruct (split sep s) as [|h t]; [congruence|].
    rewrite <- IH. reflexivity.
  - destruct (split sep s) as [|h t]; [congruence|].
    destruct t as [|h' t']; rewrite <- IH; reflexivity.
Qed.

Lemma isalnum_no_dash (part : string) :
  isalnum part = true -> str_forall (fun c => negb (Ascii.eqb c "-")) part = true.
Proof.
  intros H. assert (Hc : str_forall char_isalnum part = true).
  { destruct part; [discriminate H|exact H]. }
  apply (str_forall_weaken char_isalnum); [|exact Hc].
  intros c. destruct c as [[] [] [] [] [] [] [] []]; vm_compute; intros Hx;
    first [reflexivity | discriminate Hx].
Qed.

Lemma key_group_accepted (part : string) :
  negb (negb (isalnum part) || (Z.of_nat (String.length part) <? 4)) = true
  <-> key_group_ok part.
Proof.
  unfold key_group_ok. rewrite negb_true_iff, orb_false_iff, negb_false_iff, Z.ltb_ge.
  split; intros [H1 H2]; split; auto; lia.
Qed.

(** The accepted texts are the texts [FL-p1-p2-p3-p4] whose four groups pass
    [isalnum] and are at least four characters long. *)
Lemma validate_license_key_format_groups (license_key : string) :
  (LicenseKeyGenerator.validate_license_key_format license_key = true <->
   exists p1 p2 p3 p4,
     license_key
     = "FL" +:+ "-" +:+ p1 +:+ "-" +:+ p2 +:+ "-" +:+ p3 +:+ "-" +:+ p4
     /\ key_group_ok p1 /\ key_group_ok p2 /\ key_group_ok p3 /\ key_group_ok p4)
  /\ (LicenseKeyGenerator.validate_license_key_format license_key = true ->
      (22 <= String.length license_key)%nat).
Proof.
  assert (Hfwd : LicenseKeyGenerator.validate_license_key_format license_key = true ->
                 exists p1 p2 p3 p4,
                   license_key
                   = "FL" +:+ "-" +:+ p1 +:+ "-" +:+ p2 +:+ "-" +:+ p3 +:+ "-" +:+ p4
                   /\ key_group_ok p1 /\ key_group_ok p2
                   /\ key_group_ok p3 /\ key_group_ok p4).
  { unfold LicenseKeyGenerator.validate_license_key_format.
    destruct license_key as [|c0 rest0] eqn:Ek; [discriminate|]. rewrite <- Ek.
    pose proof (concat_split "-" license_key) as Hj.
    destruct (split "-" license_key) as [|p0 [|p1 [|p2 [|p3 [|p4 [|p5 t]]]]]];
      simpl; try discriminate.
    destruct (String.eqb_spec p0 "FL") as [->|]; simpl; [|discriminate].
    rewrite !andb_true_iff, !key_group_accepted.
    intros (H1 & H2 & H3 & H4 & _). exists p1, p2, p3, p4.
    split; [|auto]. rewrite <- Hj. reflexivity. }
  split; [split; [exact Hfwd|]|].
  - intros (p1 & p2 & p3 & p4 & -> & H1 & H2 & H3 & H4).
    unfold LicenseKeyGenerator.validate_license_key_format.
    assert (Hs : split "-"
                   ("FL" +:+ "-" +:+ p1 +:+ "-" +:+ p2 +:+ "-" +:+ p3 +:+ "-" +:+ p4)
                 = ["FL"; p1; p2; p3; p4]).
    { change (split "-"
                ("FL" +:+ String "-"
                   (p1 +:+ String "-" (p2 +:+ String "-" (p3 +:+ String "-" p4))))
              = ["FL"; p1; p2; p3; p4]).
      rewrite (split_app_sep "-" "FL" _ eq_refl).
      rewrite (split_app_sep "-" p1 _ (isalnum_no_dash _ (proj1 H1))).
      rewrite (split_app_sep "-" p2 _ (isalnum_no_dash _ (proj1 H2))).
      rewrite (split_app_sep "-" p3 _ (isalnum_no_dash _ (proj1 H3))).
      rewrite (split_no_sep "-" p4 (isalnum_no_dash _ (proj1 H4))).
      reflexivity. }
    rewrite Hs. cbn [String.append]. cbn -[isalnum Z.ltb Z.of_nat].
    rewrite (proj2 (key_group_accepted p1) H1), (proj2 (key_group_accepted p2) H2),
      (proj2 (key_group_accepted p3) H3), (proj2 (key_group_accepted p4) H4).
    reflexivity.
  - intros H. destruct (Hfwd H) as (p1 & p2 & p3 & p4 & -> & H1 & H2 & H3 & H4).
    rewrite !str_length_app. simpl String.length.
    destruct H1 as [_ H1], H2 as [_ H2], H3 as [_ H3], H4 as [_ H4]. lia.
Qed.

Lemma str_forall_app (p : ascii -> bool) (a b : string) :
  str_forall p (a +:+ b) = str_forall p a && str_forall p b.
Proof.
  induction a as [|c a IH]; simpl; [reflexivity|].
  rewrite IH. apply andb_assoc.
Qed.

Lemma char_isalnum_ascii (c : ascii) :
  is_ascii c = true -> char_isalnum c = ascii_alnum c.
Proof.
  destruct c as [[] [] [] [] [] [] [] []]; vm_compute; intros H;
    first [reflexivity | discriminate H].
Qed.

Lemma isalnum_ascii (part : string) :
  str_forall is_ascii part = true -> (4 <= String.length part)%nat ->
  (isalnum part = true <-> str_forall ascii_alnum part = true).
Proof.
  intros Ha Hl.
  assert (E : isalnum part = str_forall char_isalnum part).
  { destruct part; [simpl in Hl; lia|reflexivity]. }
  rewrite E. clear E Hl.
  induction part as [|c part IH]; simpl; [tauto|].
  simpl in Ha. apply andb_true_iff in Ha. destruct Ha as [Hc Ha].
  rewrite (char_isalnum_ascii c Hc), !andb_true_iff, (IH Ha). tauto.
Qed.

(** For a licence key of ASCII characters, [validate_license_key_format]
    accepts exactly the texts [FL-p1-p2-p3-p4] whose four groups consist of
    the letters A-Z and a-z and the digits 0-9 and are at least four
    characters long; an accepted key therefore has at least 22 characters. *)
Theorem validate_license_key_format_iff (license_key : string) :
  str_forall is_ascii license_key = true ->
  (LicenseKeyGenerator.validate_license_key_format license_key = true <->
   exists p1 p2 p3 p4,
     license_key
     = "FL" +:+ "-" +:+ p1 +:+ "-" +:+ p2 +:+ "-" +:+ p3 +:+ "-" +:+ p4
     /\ (str_forall ascii_alnum p1 = true /\ (4 <= String.length p1)%nat)
     /\ (str_forall ascii_alnum p2 = true /\ (4 <= String.length p2)%nat)
     /\ (str_forall ascii_alnum p3 = true /\ (4 <= String.length p3)%nat)
     /\ (str_forall ascii_alnum p4 = true /\ (4 <= String.length p4)%nat))
  /\ (LicenseKeyGenerator.validate_license_key_format license_key = true ->
      (22 <= String.length license_key)%nat).
Proof.
  intros Hascii.
  destruct (validate_license_key_format_groups license_key) as [Hiff Hlen].
  split; [|exact Hlen]. rewrite Hiff. unfold key_group_ok. split.
  - intros (p1 & p2 & p3 & p4 & Hk & [H1 L1] & [H2 L2] & [H3 L3] & [H4 L4]).
    rewrite Hk in Hascii. rewrite !str_forall_app, !andb_true_iff in Hascii.
    destruct Hascii as (_ & _ & A1 & _ & A2 & _ & A3 & _ & A4).
    exists p1, p2, p3, p4. split; [exact Hk|].
    rewrite <- (isalnum_ascii p1 A1 L1), <- (isalnum_ascii p2 A2 L2),
      <- (isalnum_ascii p3 A3 L3), <- (isalnum_ascii p4 A4 L4). auto 10.
  - intros (p1 & p2 & p3 & p4 & Hk & [H1 L1] & [H2 L2] & [H3 L3] & [H4 L4]).
    rewrite Hk in Hascii. rewrite !str_forall_app, !andb_true_iff in Hascii.
    destruct Hascii as (_ & _ & A1 & _ & A2 & _ & A3 & _ & A4).
    exists p1, p2, p3, p4. split; [exact Hk|].
    rewrite (isalnum_ascii p1 A1 L1), (isalnum_ascii p2 A2 L2),
      (isalnum_ascii p3 A3 L3), (isalnum_ascii p4 A4 L4). auto 10.
Qed.

(** A key with lower-case letters and digits in its groups is accepted. *)
Lemma validate_license_key_format_iff_demo :
  LicenseKeyGenerator.validate_license_key_format "FL-ab12-CD34-ef56-GH78" = true
  /\ (LicenseKeyGenerator.validate_license_key_format "FL-ab12-CD34-ef56-GH78" = true
      <-> exists p1 p2 p3 p4,
            "FL-ab12-CD34-ef56-GH78"
            = "FL" +:+ "-" +:+ p1 +:+ "-" +:+ p2 +:+ "-" +:+ p3 +:+ "-" +:+ p4
            /\ (str_forall ascii_alnum p1 = true /\ (4 <= String.length p1)%nat)
            /\ (str_forall ascii_alnum p2 = true /\ (4 <= String.length p2)%nat)
            /\ (str_forall ascii_alnum p3 = true /\ (4 <= String.length p3)%nat)
            /\ (str_forall ascii_alnum p4 = true /\ (4 <= String.length p4)%nat))
  /\ (LicenseKeyGenerator.validate_license_key_format "FL-ab12-CD34-ef56-GH78" = true
      -> (22 <= String.length "FL-ab12-CD34-ef56-GH78")%nat).
Proof.
  split; [reflexivity|].
  exact (validate_license_key_format_iff "FL-ab12-CD34-ef56-GH78" eq_refl).
Defined.

(** ** Token verification *)

(** With the public key loaded, [verify_subscription_token] has three
    outcomes.  It answers [valid = true] with the payload of the token for
    an RS256 token whose signature verifies, which has not expired, and whose
    audience and issuer are ["flowlytix-app"] and ["flowlytix-licensing"].
    It answers [valid = false] with ["token_expired"] for an RS256 token
    whose signature verifies and which has expired.  For every other token
    (unparsable, another algorithm, a bad signature, or a wrong audience or
    issuer) it raises [AttributeError]: it never answers ["invalid_token"]
    or ["verification_error"]. *)
Theorem verify_subscription_token_outcomes
    (scheme : SignatureScheme) (jm : @JWTManager scheme) (pk : public_key)
    (tok : @token scheme) (now : datetime) :
  _public_key jm = Some pk ->
  match verify_subscription_token jm tok now with
  | Ok r =>
      exists claims sig,
        tok = Compact "RS256" claims sig
        /\ verify pk ("RS256", claims) sig = true
        /\ ((now / 1000000 <= exp claims
             /\ aud claims = "flowlytix-app"
             /\ iss claims = "flowlytix-licensing"
             /\ r = mkVerifyResult true (Some claims) None)
            \/ (exp claims < now / 1000000
                /\ r = mkVerifyResult false None (Some "token_expired")))
  | Raise x =>
      Exn.cls x = Exn.AttributeError
      /\ Exn.message x = "module 'jose.jwt' has no attribute 'InvalidTokenError'"
      /\ forall claims sig,
           tok = Compact "RS256" claims sig ->
           verify pk ("RS256", claims) sig = true ->
           now / 1000000 <= exp claims
           /\ (aud claims <> "flowlytix-app" \/ iss claims <> "flowlytix-licensing")
  end.
Proof.
  intros Hpk. unfold verify_subscription_token, jwt_decode. rewrite Hpk.
  destruct tok as [alg claims sig|text].
  - cbn [existsb orb].
    destruct (String.eqb_spec alg "RS256") as [->|Halg]; cbn [negb orb].
    + destruct (verify pk ("RS256", claims) sig) eqn:Hv; cbn [negb].
      * destruct (Z.ltb_spec (exp claims) (now / 1000000)) as [Hexp|Hexp].
        -- exists claims, sig. auto.
        -- destruct (String.eqb_spec (aud claims) "flowlytix-app") as [Ha|Ha];
             cbn [negb].
           ++ destruct (String.eqb_spec (iss claims) "flowlytix-licensing")
                as [Hi|Hi]; cbn [negb].
              ** exists claims, sig. auto 10.
              ** split; [reflexivity|]. split; [reflexivity|].
                 intros c g H _. inversion H; subst. auto.
           ++ split; [reflexivity|]. split; [reflexivity|].
              intros c g H _. inversion H; subst. auto.
      * split; [reflexivity|]. split; [reflexivity|].
        intros c g H Hv'. inversion H; subst. congruence.
    + split; [reflexivity|]. split; [reflexivity|].
      intros c g H _. inversion H; subst. congruence.
  - split; [reflexivity|]. split; [reflexivity|]. intros c g H. discriminate.
Qed.

(** A signed, unexpired token for the dashboard audience makes the licence
    verifier raise. *)
Lemma verify_subscription_token_outcomes_demo :
  @verify_subscription_token demo_scheme demo_manager
    (@jwt_encode demo_scheme
       (mkClaims "s" "c" "basic" ∅ "d1" None 7 "flowlytix-dashboard"
          "flowlytix-dashboard" 1704067200 1706659200 "j") 7 "RS256")
    demo_now
  = Raise (Exn.Attribute "module 'jose.jwt' has no attribute 'InvalidTokenError'")
  /\ match
       @verify_subscription_token demo_scheme demo_manager
         (@jwt_encode demo_scheme
            (mkClaims "s" "c" "basic" ∅ "d1" None 7 "flowlytix-dashboard"
               "flowlytix-dashboard" 1704067200 1706659200 "j") 7 "RS256")
         demo_now
     with
     | Ok r =>
         exists claims sig,
           @jwt_encode demo_scheme
             (mkClaims "s" "c" "basic" ∅ "d1" None 7 "flowlytix-dashboard"
                "flowlytix-dashboard" 1704067200 1706659200 "j") 7 "RS256"
           = Compact "RS256" claims sig
           /\ @verify demo_scheme 7 ("RS256", claims) sig = true
           /\ ((demo_now / 1000000 <= exp claims
                /\ aud claims = "flowlytix-app"
                /\ iss claims = "flowlytix-licensing"
                /\ r = mkVerifyResult true (Some claims) None)
               \/ (exp claims < demo_now / 1000000
                   /\ r = mkVerifyResult false None (Some "token_expired")))
     | Raise x =>
         Exn.cls x = Exn.AttributeError
         /\ Exn.message x
            = "module 'jose.jwt' has no attribute 'InvalidTokenError'"
         /\ forall claims sig,
              @jwt_encode demo_scheme
                (mkClaims "s" "c" "basic" ∅ "d1" None 7 "flowlytix-dashboard"
                   "flowlytix-dashboard" 1704067200 1706659200 "j") 7 "RS256"
              = Compact "RS256" claims sig ->
              @verify demo_scheme 7 ("RS256", claims) sig = true ->
              demo_now / 1000000 <= exp claims
              /\ (aud claims <> "flowlytix-app"
                  \/ iss claims <> "flowlytix-licensing")
     end.
Proof.
  split; [reflexivity|].
  exact (verify_subscription_token_outcomes demo_scheme demo_manager 7
           (@jwt_encode demo_scheme
              (mkClaims "s" "c" "basic" ∅ "d1" None 7 "flowlytix-dashboard"
                 "flowlytix-dashboard" 1704067200 1706659200 "j") 7 "RS256")
           demo_now eq_refl).
Defined.









(** ** Device rows and the table constraints *)

Lemma existsb_eqb_false (ids : list Z) (x : Z) :
  existsb (fun y => y =? x) ids = false <-> ~ In x ids.
Proof.
  induction ids as [|y ids IH]; simpl; [tauto|].
  rewrite orb_false_iff, IH. destruct (Z.eqb_spec y x); split.
  - intros [H _]. discriminate H.
  - intros H. exfalso. apply H. left. assumption.
  - intros [_ H] [E|E]; [congruence|auto].
  - intros H. split; [reflexivity|]. intros E. apply H. right. exact E.
Qed.

Lemma existsb_id_false (rows : list Device.t) (x : UUID) :
  existsb (fun d => Device.id d =? x) rows = false
  <-> ~ In x (List.map Device.id rows).
Proof.
  rewrite <- existsb_eqb_false. induction rows as [|d rows IH]; simpl; [tauto|].
  rewrite !orb_false_iff, IH. tauto.
Qed.

Lemma existsb_key_false (rows : list Device.t) (device : Device.t) :
  existsb
    (fun d => (Device.subscription_id d =? Device.subscription_id device)
              && String.eqb (Device.device_id d) (Device.device_id device)) rows
  = false
  <-> ~ In (device_key device) (List.map device_key rows).
Proof.
  induction rows as [|d rows IH]; simpl; [tauto|].
  rewrite orb_false_iff, IH. unfold device_key at 2.
  destruct (Z.eqb_spec (Device.subscription_id d) (Device.subscription_id device))
    as [E1|E1];
    destruct (String.eqb_spec (Device.device_id d) (Device.device_id device))
      as [E2|E2]; simpl; split.
  - intros [H _]. discriminate H.
  - intros H. exfalso. apply H. left. unfold device_key. congruence.
  - intros [_ H] [E|E]; [inversion E; congruence|auto].
  - intros H. split; [reflexivity|]. intros E. apply H. right. exact E.
  - intros [_ H] [E|E]; [inversion E; congruence|auto].
  - intros H. split; [reflexivity|]. intros E. apply H. right. exact E.
  - intros [_ H] [E|E]; [inversion E; congruence|auto].
  - intros H. split; [reflexivity|]. intros E. apply H. right. exact E.
Qed.

Lemma existsb_subscription_true (rows : list SubscriptionModel) (x : UUID) :
  existsb (fun m => m_id m =? x) rows = true <-> In x (List.map m_id rows).
Proof.
  induction rows as [|m rows IH]; simpl; [split; [discriminate|tauto]|].
  rewrite orb_true_iff, IH, Z.eqb_eq. tauto.
Qed.

Lemma insert_allowed_iff (db : Database) (device : Device.t) :
  DeviceRepository.insert_allowed db device = true <->
  ~ In (Device.id device) (List.map Device.id (device_rows db))
  /\ In (Device.subscription_id device) (List.map m_id (subscriptions db))
  /\ ~ In (device_key device) (List.map device_key (device_rows db)).
Proof.
  unfold DeviceRepository.insert_allowed.
  rewrite !andb_true_iff, !negb_true_iff, existsb_id_false, existsb_key_false,
    existsb_subscription_true. tauto.
Qed.

Lemma device_create_consistent (db db' : Database) (device created : Device.t) :
  DeviceRepository.create db device = Ok (created, db') ->
  devices_consistent db -> devices_consistent db'.
Proof.
  unfold DeviceRepository.create.
  destruct (DeviceRepository.insert_allowed db device) eqn:E; [|discriminate].
  intros H. inversion H; subst. apply insert_allowed_iff in E as (E1 & E2 & E3).
  intros (N1 & N2 & F). unfold devices_consistent. simpl.
  rewrite !List.map_app. simpl. split; [|split].
  - apply NoDup_app. split; [exact N1|]. split.
    + intros x Hx [<-|[]]%list_elem_of_In. apply E1. apply list_elem_of_In. exact Hx.
    + apply NoDup_singleton.
  - apply NoDup_app. split; [exact N2|]. split.
    + intros x Hx [<-|[]]%list_elem_of_In. apply E3. apply list_elem_of_In. exact Hx.
    + apply NoDup_singleton.
  - intros d [Hd|[<-|[]]]%in_app_iff; [apply F; exact Hd|exact E2].
Qed.

Lemma device_update_rows (device : Device.t) (now : datetime) (rows : list Device.t) :
  List.map Device.id (List.map (DeviceRepository.update_row device now) rows)
  = List.map Device.id rows
  /\ List.map device_key (List.map (DeviceRepository.update_row device now) rows)
     = List.map device_key rows.
Proof.
  split; rewrite List.map_map; apply List.map_ext; intros d;
    unfold DeviceRepository.update_row, device_key;
    destruct (Device.id d =? Device.id device); reflexivity.
Qed.

Lemma device_update_consistent (db db' : Database) (device updated : Device.t)
    (now : datetime) :
  DeviceRepository.update db device now = Ok (updated, db') ->
  devices_consistent db -> devices_consistent db'.
Proof.
  unfold DeviceRepository.update.
  destruct (DeviceRepository.get_by_id _ _) as [[u|]|]; try discriminate.
  intros H. inversion H; subst. intros (N1 & N2 & F).
  destruct (device_update_rows device now (device_rows db)) as [R1 R2].
  unfold devices_consistent. simpl. rewrite R1, R2.
  split; [exact N1|]. split; [exact N2|].
  intros d Hd. apply in_map_iff in Hd as (d0 & <- & Hd0).
  specialize (F d0 Hd0). unfold DeviceRepository.update_row.
  destruct (Device.id d0 =? Device.id device); exact F.
Qed.

Lemma subscription_update_ids (s : Subscription.t) (now : datetime)
    (rows : list SubscriptionModel) :
  List.map m_id (List.map (SubscriptionRepository.update_row s now) rows)
  = List.map m_id rows.
Proof.
  rewrite List.map_map. apply List.map_ext. intros m.
  unfold SubscriptionRepository.update_row.
  destruct (m_id m =? Subscription.id s); reflexivity.
Qed.

Lemma subscription_update_consistent (db db' : Database) (s saved : Subscription.t)
    (now : datetime) :
  SubscriptionRepository.update db s now = Ok (saved, db') ->
  devices_consistent db -> devices_consistent db'.
Proof.
  unfold SubscriptionRepository.update.
  destruct (SubscriptionRepository.get_by_id _ _) as [[u|]|]; try discriminate.
  intros H. inversion H; subst. intros (N1 & N2 & F).
  unfold devices_consistent. simpl. rewrite subscription_update_ids. auto.
Qed.

(** On a table that satisfies its constraints, [DeviceRepository.create]
    stores a device only when its id is new, its subscription exists and no
    row has the same subscription and client device id; it then appends the
    row unchanged, leaves the subscriptions alone, and the table constraints
    still hold.  A device that breaks one of the three conditions is refused
    with [DatabaseException], and every failure of [create] is a
    [DatabaseException]. *)
Theorem device_create_keeps_constraints (db : Database) (device : Device.t) :
  devices_consistent db ->
  let fresh :=
    ~ In (Device.id device) (List.map Device.id (device_rows db))
    /\ In (Device.subscription_id device) (List.map m_id (subscriptions db))
    /\ ~ In (device_key device) (List.map device_key (device_rows db)) in
  match DeviceRepository.create db device with
  | Ok (created, db') =>
      fresh
      /\ created = device
      /\ device_rows db' = (device_rows db ++ [device])%list
      /\ subscriptions db' = subscriptions db
      /\ devices_consistent db'
  | Raise x => Exn.cls x = Exn.DatabaseException
  end
  /\ (~ fresh ->
      exists x,
        DeviceRepository.create db device = Raise x
        /\ Exn.cls x = Exn.DatabaseException).
Proof.
  intros Hc fresh. pose proof (insert_allowed_iff db device) as A. fold fresh in A.
  split.
  - destruct (DeviceRepository.create db device) as [[created db']|x] eqn:E.
    + pose proof (device_create_consistent _ _ _ _ E Hc) as Hc'.
      unfold DeviceRepository.create in E.
      destruct (DeviceRepository.insert_allowed db device); [|discriminate].
      inversion E; subst created db'. split; [apply A; reflexivity|].
      split; [reflexivity|]. split; [reflexivity|]. split; [reflexivity|].
      exact Hc'.
    + unfold DeviceRepository.create in E.
      destruct (DeviceRepository.insert_allowed db device); [discriminate|].
      inversion E. reflexivity.
  - intros H. unfold DeviceRepository.create.
    destruct (DeviceRepository.insert_allowed db device).
    + exfalso. apply H. apply A. reflexivity.
    + eexists. split; reflexivity.
Qed.

Lemma demo_bound_db_consistent : devices_consistent demo_bound_db.
Proof.
  unfold devices_consistent, demo_bound_db. simpl.
  split; [apply NoDup_singleton|]. split; [apply NoDup_singleton|].
  intros d [<-|[]]. left. reflexivity.
Qed.

(** A second row for the bound client id ["d1"] is refused. *)
Lemma device_create_keeps_constraints_demo :
  match
    DeviceRepository.create demo_bound_db
      (Device.mk 4004 1001 "d1" None None None None None None true None 0 0)
  with
  | Ok (created, db') =>
      (~ In 4004 (List.map Device.id (device_rows demo_bound_db))
       /\ In 1001 (List.map m_id (subscriptions demo_bound_db))
       /\ ~ In (1001, "d1") (List.map device_key (device_rows demo_bound_db)))
      /\ created
         = Device.mk 4004 1001 "d1" None None None None None None true None 0 0
      /\ device_rows db'
         = (device_rows demo_bound_db
              ++ [Device.mk 4004 1001 "d1" None None None None None None true None
                    0 0])%list
      /\ subscriptions db' = subscriptions demo_bound_db
      /\ devices_consistent db'
  | Raise x => Exn.cls x = Exn.DatabaseException
  end
  /\ exists x,
       DeviceRepository.create demo_bound_db
         (Device.mk 4004 1001 "d1" None None None None None None true None 0 0)
       = Raise x
       /\ Exn.cls x = Exn.DatabaseException.
Proof.
  split.
  - exact (proj1 (device_create_keeps_constraints demo_bound_db
                    (Device.mk 4004 1001 "d1" None None None None None None true None
                       0 0)
                    demo_bound_db_consistent)).
  - apply (proj2 (device_create_keeps_constraints demo_bound_db
                    (Device.mk 4004 1001 "d1" None None None None None None true None
                       0 0)
                    demo_bound_db_consistent)).
    intros (_ & _ & H). apply H. left. reflexivity.
Defined.

(** ** The service and the store *)

(** The service writes to the store only through the repositories: a property
    of stores that every repository write keeps is kept by the operations of
    the service. *)
Lemma service_keeps_store_property
    (Store : Type) (subscription_repo : ISubscriptionRepository Store)
    (device_repo : IDeviceRepository Store) (scheme : SignatureScheme)
    (settings : Settings) (security_manager : @JWTManager scheme)
    (P : Store -> Prop) :
  (forall st s now saved st', sub_update st s now = Ok (saved, st') -> P st -> P st') ->
  (forall st d created st', dev_create st d = Ok (created, st') -> P st -> P st') ->
  (forall st d now updated st', dev_update st d now = Ok (updated, st') -> P st -> P st') ->
  forall (license_key device_id : string) (now : datetime) (w : @World Store),
    P (store w) ->
    (forall device_info r w',
        activate_license settings security_manager license_key device_id
          device_info now w = Ok (r, w') -> P (store w'))
    /\ (forall update_last_seen r w',
          validate_license license_key device_id update_last_seen now w = Ok (r, w') ->
          P (store w'))
    /\ (forall r w',
          deactivate_device license_key device_id now w = Ok (r, w') -> P (store w')).
Proof.
  intros Hsub Hcreate Hupdate license_key device_id now w HP.
  split; [|split].
  - intros device_info r w'. unfold activate_license, activate_new_device.
    destruct (sub_get_by_license_key (store w) license_key) as [[s|]|];
      try discriminate.
    destruct (Subscription.validate_for_activation s device_id now)
      as [[check s1]|]; try discriminate.
    destruct (String.eqb (check_action check) "can_activate").
    + destruct (uuid4 (rng w)) as [new_id rng'].
      destruct (dev_create (store w) _) as [[created st1]|] eqn:E1; try discriminate.
      destruct (Subscription.add_device s1 created now) as [[s2 created']|];
        try discriminate.
      destruct (sub_update st1 s2 now) as [[saved st2]|] eqn:E2; try discriminate.
      cbn [rng store].
      destruct (generate_subscription_token _ _ _ _ _) as [[tok rng'']|];
        try discriminate.
      intros H. inversion H; subst. simpl.
      eapply Hsub; [exact E2|]. eapply Hcreate; [exact E1|exact HP].
    + destruct (String.eqb (check_action check) "reactivated").
      * destruct (check_device check) as [[i device]|]; try discriminate.
        destruct (dev_update (store w) _ now) as [[updated st1]|] eqn:E1;
          try discriminate.
        cbn [rng store].
        destruct (generate_subscription_token _ _ _ _ _) as [[tok rng'']|];
          try discriminate.
        intros H. inversion H; subst. simpl. eapply Hupdate; [exact E1|exact HP].
      * destruct (generate_subscription_token _ _ _ _ _) as [[tok rng'']|];
          try discriminate.
        destruct (check_device check) as [[i device]|]; try discriminate.
        intros H. inversion H; subst. exact HP.
  - intros update_last_seen r w'. unfold validate_license.
    destruct (sub_get_by_license_key (store w) license_key) as [[s|]|];
      try discriminate.
    destruct (Subscription.lookup_device (Subscription.devices s) device_id)
      as [[i device]|].
    + destruct (negb (Device.is_active device)).
      * intros H. inversion H; subst. exact HP.
      * destruct (negb (Subscription.is_active s now)).
        -- intros H. inversion H; subst. exact HP.
        -- destruct update_last_seen.
           ++ destruct (dev_update (store w) _ now) as [[updated st1]|] eqn:E1;
                try discriminate.
              intros H. inversion H; subst. simpl.
              eapply Hupdate; [exact E1|exact HP].
           ++ intros H. inversion H; subst. exact HP.
    + intros H. inversion H; subst. exact HP.
  - intros r w'. unfold deactivate_device.
    destruct (sub_get_by_license_key (store w) license_key) as [[s|]|];
      try discriminate.
    destruct (Subscription.remove_device s device_id now) as [removed s1].
    destruct removed.
    + destruct (sub_update (store w) s1 now) as [[saved st1]|] eqn:E1;
        try discriminate.
      intros H. inversion H; subst. simpl. eapply Hsub; [exact E1|exact HP].
    + intros H. inversion H; subst. exact HP.
Qed.

(** Over the SQLAlchemy repositories, activation, validation and deactivation
    keep the constraints of the [devices] table: after any of them succeeds,
    device ids are still unique, no two rows share a subscription and client
    device id, and every row still belongs to a stored subscription. *)
Theorem service_keeps_table_constraints
    (scheme : SignatureScheme) (settings : Settings)
    (security_manager : @JWTManager scheme)
    (license_key device_id : string) (now : datetime) (w : @World Database) :
  devices_consistent (store w) ->
  (forall device_info r w',
      @activate_license Database sql_subscription_repository sql_device_repository
        scheme settings security_manager license_key device_id device_info now w
      = Ok (r, w') -> devices_consistent (store w'))
  /\ (forall update_last_seen r w',
        @validate_license Database sql_subscription_repository sql_device_repository
          license_key device_id update_last_seen now w = Ok (r, w') ->
        devices_consistent (store w'))
  /\ (forall r w',
        @deactivate_device Database sql_subscription_repository
          license_key device_id now w = Ok (r, w') ->
        devices_consistent (store w')).
Proof.
  apply (service_keeps_store_property Database sql_subscription_repository
           sql_device_repository scheme settings security_manager
           devices_consistent).
  - intros st s t saved st' H. exact (subscription_update_consistent _ _ _ _ _ H).
  - intros st d created st' H. exact (device_create_consistent _ _ _ _ H).
  - intros st d t updated st' H. exact (device_update_consistent _ _ _ _ _ H).
Qed.

Lemma service_keeps_table_constraints_demo :
  (forall device_info r w',
      @activate_license Database sql_subscription_repository sql_device_repository
        demo_scheme default_settings demo_manager demo_key "d2" device_info demo_now
        (demo_world demo_bound_db)
      = Ok (r, w') -> devices_consistent (store w'))
  /\ (forall update_last_seen r w',
        @validate_license Database sql_subscription_repository sql_device_repository
          demo_key "d2" update_last_seen demo_now (demo_world demo_bound_db)
        = Ok (r, w') ->
        devices_consistent (store w'))
  /\ (forall r w',
        @deactivate_device Database sql_subscription_repository
          demo_key "d2" demo_now (demo_world demo_bound_db) = Ok (r, w') ->
        devices_consistent (store w')).
Proof.
  exact (service_keeps_table_constraints demo_scheme default_settings demo_manager
           demo_key "d2" demo_now (demo_world demo_bound_db)
           demo_bound_db_consistent).
Defined.

(** ** Aggregates loaded by the SQLAlchemy repository *)

Lemma scalar_one_or_none_Some {A : Type} (rows : list A) (row : A) :
  SubscriptionRepository.scalar_one_or_none rows = Ok (Some row) -> rows = [row].
Proof.
  destruct rows as [|a [|b rest]]; simpl; try discriminate.
  intros H. inversion H. reflexivity.
Qed.

Lemma get_by_license_key_entity (db : Database) (license_key : string)
    (s : Subscription.t) :
  SubscriptionRepository.get_by_license_key db license_key = Ok (Some s) ->
  exists model,
    In model (subscriptions db) /\ m_license_key model = license_key
    /\ s = SubscriptionRepository._model_to_entity model.
Proof.
  unfold SubscriptionRepository.get_by_license_key.
  destruct (SubscriptionRepository.scalar_one_or_none _) as [[model|]|] eqn:E;
    try discriminate.
  intros H. inversion H; subst. exists model.
  apply scalar_one_or_none_Some in E.
  assert (Hin : In model
                  (List.filter (fun m => String.eqb (m_license_key m) license_key)
                     (subscriptions db))) by (rewrite E; left; reflexivity).
  apply List.filter_In in Hin. destruct Hin as [Hin Hk].
  apply String.eqb_eq in Hk. auto.
Qed.

Lemma get_by_id_entity (db : Database) (subscription_id : UUID)
    (s : Subscription.t) :
  SubscriptionRepository.get_by_id db subscription_id = Ok (Some s) ->
  exists model,
    In model (subscriptions db) /\ m_id model = subscription_id
    /\ s = SubscriptionRepository._model_to_entity model.
Proof.
  unfold SubscriptionRepository.get_by_id.
  destruct (SubscriptionRepository.scalar_one_or_none _) as [[model|]|] eqn:E;
    try discriminate.
  intros H. inversion H; subst. exists model.
  apply scalar_one_or_none_Some in E.
  assert (Hin : In model
                  (List.filter (fun m => m_id m =? subscription_id)
                     (subscriptions db))) by (rewrite E; left; reflexivity).
  apply List.filter_In in Hin. destruct Hin as [Hin Hk].
  apply Z.eqb_eq in Hk. auto.
Qed.

(** The aggregate that the SQLAlchemy repository loads has no devices, so
    through it a device is never found: for every licence key that resolves,
    [validate_license] answers ["device_not_activated"] and
    [deactivate_device] answers [False], whatever rows the [devices] table
    holds, and neither writes anything. *)
Theorem sql_service_finds_no_device
    (license_key device_id : string) (update_last_seen : bool)
    (now : datetime) (w : @World Database) (s : Subscription.t) :
  SubscriptionRepository.get_by_license_key (store w) license_key = Ok (Some s) ->
  @validate_license Database sql_subscription_repository sql_device_repository
    license_key device_id update_last_seen now w
  = Ok (mkValidationResult false (Some "device_not_activated")
          (Some "Device not activated for this subscription")
          None None None None None None, w)
  /\ @deactivate_device Database sql_subscription_repository
       license_key device_id now w = Ok (false, w).
Proof.
  intros Hget.
  destruct (get_by_license_key_entity _ _ _ Hget) as (model & _ & _ & Hs).
  unfold validate_license, deactivate_device. cbn [sub_get_by_license_key
    sql_subscription_repository]. rewrite Hget. subst s. split; reflexivity.
Qed.

Lemma sql_service_finds_no_device_demo :
  @validate_license Database sql_subscription_repository sql_device_repository
    demo_key "d1" true demo_now (demo_world demo_bound_db)
  = Ok (mkValidationResult false (Some "device_not_activated")
          (Some "Device not activated for this subscription")
          None None None None None None, demo_world demo_bound_db)
  /\ @deactivate_device Database sql_subscription_repository
       demo_key "d1" demo_now (demo_world demo_bound_db)
     = Ok (false, demo_world demo_bound_db).
Proof.
  exact (sql_service_finds_no_device demo_key "d1" true demo_now
           (demo_world demo_bound_db)
           (SubscriptionRepository._model_to_entity (demo_row ACTIVE None 1 7))
           eq_refl).
Defined.






(** ** Saving and reloading a subscription *)

Lemma update_row_id (s : Subscription.t) (now : datetime) (m : SubscriptionModel) :
  m_id (SubscriptionRepository.update_row s now m) = m_id m.
Proof.
  unfold SubscriptionRepository.update_row.
  destruct (m_id m =? Subscription.id s); reflexivity.
Qed.

(** [update] writes the mutable columns of the row with the subscription's
    id and returns the reloaded aggregate: status, tier, device limit, start,
    expiry, grace period and feature overrides are those of the saved
    subscription, [updated_at] is the time of the save, and the reloaded
    aggregate has no devices.  Customer, licence key and creation time come
    from the stored row, and the [devices] table is not touched.  When no row
    has the id, [update] raises [DatabaseException]. *)
Theorem subscription_update_saves_columns
    (db : Database) (s : Subscription.t) (now : datetime) :
  match SubscriptionRepository.update db s now with
  | Ok (saved, db') =>
      SubscriptionRepository.get_by_id db' (Subscription.id s) = Ok (Some saved)
      /\ device_rows db' = device_rows db
      /\ (exists row,
            In row (subscriptions db) /\ m_id row = Subscription.id s
            /\ Subscription.customer_id saved = m_customer_id row
            /\ Subscription.license_key saved = m_license_key row
            /\ Subscription.created_at saved = m_created_at row)
      /\ Subscription.id saved = Subscription.id s
      /\ Subscription.status saved = Subscription.status s
      /\ Subscription.tier saved = Subscription.tier s
      /\ Subscription.max_devices saved = Subscription.max_devices s
      /\ Subscription.starts_at saved = Subscription.starts_at s
      /\ Subscription.expires_at saved = Subscription.expires_at s
      /\ Subscription.grace_period_days saved = Subscription.grace_period_days s
      /\ Subscription.feature_set saved
         = FeatureSet.init (Subscription.tier s)
             (Some (FeatureSet.features (Subscription.feature_set s)))
      /\ Subscription.updated_at saved = now
      /\ Subscription.devices saved = []
  | Raise x =>
      Exn.cls x = Exn.DatabaseException
      /\ ((forall row, In row (subscriptions db) -> m_id row <> Subscription.id s) ->
          Exn.message x
          = "Failed to update subscription: Subscription not found after update")
  end.
Proof.
  unfold SubscriptionRepository.update.
  destruct (SubscriptionRepository.get_by_id _ _) as [[saved|]|x] eqn:E.
  - split; [exact E|]. split; [reflexivity|].
    apply get_by_id_entity in E. destruct E as (model & Hin & Hid & Hs).
    cbn [subscriptions] in Hin. apply List.in_map_iff in Hin.
    destruct Hin as (row & Hrow & Hin).
    assert (Hrid : m_id row = Subscription.id s).
    { rewrite <- Hid, <- Hrow. symmetry. apply update_row_id. }
    unfold SubscriptionRepository.update_row in Hrow.
    rewrite Hrid, Z.eqb_refl in Hrow. subst model saved.
    split; [exists row; cbn; auto|]. cbn. repeat split; reflexivity.
  - split; [reflexivity|]. intros _. reflexivity.
  - split; [reflexivity|]. intros Hno. exfalso.
    unfold SubscriptionRepository.get_by_id in E. cbn [subscriptions] in E.
    assert (Hf : List.filter (fun m => m_id m =? Subscription.id s)
                   (List.map (SubscriptionRepository.update_row s now)
                      (subscriptions db)) = []).
    { clear E. revert Hno. generalize (subscriptions db) as rows.
      induction rows as [|m rest IH]; intros Hno; [reflexivity|]. simpl.
      rewrite update_row_id.
      destruct (m_id m =? Subscription.id s) eqn:Em.
      - apply Z.eqb_eq in Em. exfalso. apply (Hno m); [left; reflexivity|exact Em].
      - apply IH. intros row Hin. apply Hno. right. exact Hin. }
    rewrite Hf in E. simpl in E. discriminate.
Qed.

(** ** Feature sets through the repository *)

(** A feature set rebuilt from its own feature map at the same tier, as the
    repository does when it reloads a saved subscription, is the same feature
    set. *)
Theorem feature_set_reload_is_identity
    (tier : SubscriptionTier) (custom_features : option (gmap string feature_value)) :
  FeatureSet.init tier
    (Some (FeatureSet.features (FeatureSet.init tier custom_features)))
  = FeatureSet.init tier custom_features.
Proof.
  unfold FeatureSet.init. destruct custom_features as [custom|]; cbn.
  - f_equal. rewrite <- (assoc_L (∪)). rewrite (idemp_L (∪)). reflexivity.
  - f_equal. apply (idemp_L (∪)).
Qed.

(** ** HTTP routes *)

(** [POST /validate] never answers an unknown licence key with an error
    status: when the key resolves to no subscription the route returns a
    response with [valid] false, reason ["invalid_license"] and message
    ["Invalid license key"], and the store is left as it was. *)
Theorem validate_route_unknown_key
    (Store : Type) (subscription_repo : ISubscriptionRepository Store)
    (device_repo : IDeviceRepository Store)
    (license_key device_id : string) (now : datetime) (w : @World Store) :
  sub_get_by_license_key (store w) license_key = Ok None ->
  validate_license_route license_key device_id now w
  = Response
      (mkValidationResult false (Some "invalid_license")
         (Some "Invalid license key") None None None None None None, w).
Proof.
  intros Hget. unfold validate_license_route, validate_license.
  rewrite Hget. reflexivity.
Qed.

Lemma validate_route_unknown_key_demo :
  @validate_license_route Database sql_subscription_repository sql_device_repository
    "FL-0000-0000-0000-0000" "d1" demo_now (demo_world demo_bound_db)
  = Response
      (mkValidationResult false (Some "invalid_license")
         (Some "Invalid license key") None None None None None None,
       demo_world demo_bound_db).
Proof.
  exact (validate_route_unknown_key Database sql_subscription_repository
           sql_device_repository "FL-0000-0000-0000-0000" "d1" demo_now
           (demo_world demo_bound_db) eq_refl).
Defined.



(** [POST /deactivate], for any repositories: an unknown licence key gives
    401; a client device id that the subscription does not hold gives a
    response with [success] false and the message ["Device not found"], and
    nothing is written. *)
Theorem deactivate_route_outcomes
    (Store : Type) (subscription_repo : ISubscriptionRepository Store)
    (license_key device_id : string) (now : datetime) (w : @World Store) :
  (sub_get_by_license_key (store w) license_key = Ok None ->
   deactivate_device_route license_key device_id now w
   = HTTPException 401 "Invalid license key")
  /\ (forall s,
        sub_get_by_license_key (store w) license_key = Ok (Some s) ->
        Subscription.get_device s device_id = None ->
        deactivate_device_route license_key device_id now w
        = Response (false, "Device not found", w)).
Proof.
  split.
  - intros Hget. unfold deactivate_device_route, deactivate_device.
    rewrite Hget. reflexivity.
  - intros s Hget Hdev. unfold deactivate_device_route, deactivate_device.
    rewrite Hget. unfold Subscription.get_device in Hdev.
    unfold Subscription.remove_device.
    destruct (Subscription.lookup_device (Subscription.devices s) device_id)
      as [[i d]|]; [discriminate|]. reflexivity.
Qed.

Lemma deactivate_route_outcomes_demo :
  @deactivate_device_route Database sql_subscription_repository
    "FL-0000-0000-0000-0000" "d1" demo_now (demo_world demo_bound_db)
  = HTTPException 401 "Invalid license key"
  /\ @deactivate_device_route Database sql_subscription_repository
       demo_key "d1" demo_now (demo_world demo_bound_db)
     = Response (false, "Device not found", demo_world demo_bound_db).
Proof.
  split.
  - exact (proj1 (deactivate_route_outcomes Database sql_subscription_repository
                    "FL-0000-0000-0000-0000" "d1" demo_now
                    (demo_world demo_bound_db)) eq_refl).
  - exact (proj2 (deactivate_route_outcomes Database
                    sql_subscription_repository demo_key "d1" demo_now
                    (demo_world demo_bound_db))
             (SubscriptionRepository._model_to_entity (demo_row ACTIVE None 1 7))
             eq_refl eq_refl).
Defined.

(** ** The feature check route *)

(** [POST /check-feature] never answers 401: the [HTTPException] that its
    [try] block raises for an unknown licence key is caught by the route's own
    [except Exception] clause, so an unknown key gives 500
    ["Internal server error"], as does every other failure. *)
Theorem check_feature_unknown_key_is_500
    (Store : Type) (subscription_repo : ISubscriptionRepository Store)
    (FeatureCheckResponse : Type)
    (FeatureCheckResponse_init :
       string -> feature_value -> option feature_value -> string ->
       result FeatureCheckResponse)
    (license_key feature_name : string) (st : Store) :
  sub_get_by_license_key st license_key = Ok None ->
  check_feature_body FeatureCheckResponse FeatureCheckResponse_init
    license_key feature_name st
  = inl (RaisedHTTPException 401 "Invalid license key")
  /\ check_feature FeatureCheckResponse FeatureCheckResponse_init
       license_key feature_name st
     = HTTPException 500 "Internal server error"
  /\ forall key name st',
       match check_feature FeatureCheckResponse FeatureCheckResponse_init
               key name st' with
       | Response _ => True
       | HTTPException status_code detail =>
           status_code = 500 /\ detail = "Internal server error"
       end.
Proof.
  intros Hget. unfold check_feature, check_feature_body. rewrite Hget.
  split; [reflexivity|]. split; [reflexivity|].
  intros key name st'.
  destruct (sub_get_by_license_key st' key) as [[s|]|x]; try (split; reflexivity).
  destruct (FeatureCheckResponse_init _ _ _ _); [exact I|split; reflexivity].
Qed.

Lemma check_feature_unknown_key_is_500_demo :
  @check_feature_body Database sql_subscription_repository
    (string * feature_value * option feature_value * string)
    (fun name enabled limit tier => Ok (name, enabled, limit, tier))
    "FL-0000-0000-0000-0000" "analytics" demo_bound_db
  = inl (RaisedHTTPException 401 "Invalid license key")
  /\ @check_feature Database sql_subscription_repository
       (string * feature_value * option feature_value * string)
       (fun name enabled limit tier => Ok (name, enabled, limit, tier))
       "FL-0000-0000-0000-0000" "analytics" demo_bound_db
     = HTTPException 500 "Internal server error".
Proof.
  pose proof (check_feature_unknown_key_is_500 Database sql_subscription_repository
                (string * feature_value * option feature_value * string)
                (fun name enabled limit tier => Ok (name, enabled, limit, tier))
                "FL-0000-0000-0000-0000" "analytics" demo_bound_db eq_refl)
    as (H1 & H2 & _).
  split; [exact H1|exact H2].
Defined.

(** ** Finding and deleting device rows *)

Lemma filter_none_key {A K : Type} (key : A -> K) (eqb : K -> K -> bool)
    (rows : list A) (k : K) :
  (forall a b, eqb a b = true <-> a = b) ->
  ~ In k (List.map key rows) ->
  List.filter (fun r => eqb (key r) k) rows = [].
Proof.
  intros Heqb. induction rows as [|y l IHl]; simpl; [reflexivity|]. intros Hn.
  destruct (eqb (key y) k) eqn:E.
  - apply Heqb in E. exfalso. apply Hn. left. exact E.
  - apply IHl. intros H. apply Hn. right. exact H.
Qed.

Lemma filter_at_most_one {A K : Type} (key : A -> K) (eqb : K -> K -> bool)
    (rows : list A) (k : K) :
  (forall a b, eqb a b = true <-> a = b) ->
  NoDup (List.map key rows) ->
  (List.filter (fun r => eqb (key r) k) rows = []
   /\ ~ In k (List.map key rows))
  \/ exists row,
       In row rows /\ key row = k
       /\ List.filter (fun r => eqb (key r) k) rows = [row].
Proof.
  intros Heqb. induction rows as [|x rest IH]; simpl; intros Hnd.
  - left. split; [reflexivity|]. intros [].
  - inversion Hnd as [|k0 ks Hk Hrest]; subst.
    rewrite list_elem_of_In in Hk.
    destruct (eqb (key x) k) eqn:E.
    + apply Heqb in E. right. exists x. split; [left; reflexivity|].
      split; [exact E|]. f_equal. apply filter_none_key; [exact Heqb|].
      rewrite <- E. exact Hk.
    + destruct (IH Hrest) as [[Hf Hn]|(row & Hin & Hkey & Hf)].
      * left. split; [exact Hf|]. intros [H|H]; [|exact (Hn H)].
        apply (proj2 (Heqb _ _)) in H. congruence.
      * right. exists row. split; [right; exact Hin|]. split; assumption.
Qed.

Lemma key_injective_on_rows {A K : Type} (key : A -> K) (rows : list A) (a b : A) :
  NoDup (List.map key rows) -> In a rows -> In b rows -> key a = key b -> a = b.
Proof.
  induction rows as [|x rest IH]; simpl; [intros _ []|].
  intros Hnd Ha Hb Hab. inversion Hnd as [|k0 ks Hk Hrest]; subst.
  rewrite list_elem_of_In in Hk.
  destruct Ha as [->|Ha], Hb as [->|Hb].
  - reflexivity.
  - exfalso. apply Hk. rewrite Hab. apply List.in_map. exact Hb.
  - exfalso. apply Hk. rewrite <- Hab. apply List.in_map. exact Ha.
  - apply IH; assumption.
Qed.

Lemma NoDup_map_filter {A K : Type} (key : A -> K) (p : A -> bool) (rows : list A) :
  NoDup (List.map key rows) -> NoDup (List.map key (List.filter p rows)).
Proof.
  induction rows as [|x rest IH]; simpl; [auto|].
  intros Hnd. inversion Hnd as [|k0 ks Hk Hrest]; subst.
  destruct (p x); simpl; [|auto].
  constructor; [|auto]. rewrite list_elem_of_In in *. intros H. apply Hk.
  apply List.in_map_iff in H. destruct H as (y & Hy & Hin).
  apply List.filter_In in Hin. destruct Hin as [Hin _].
  rewrite <- Hy. apply List.in_map. exact Hin.
Qed.

Lemma filter_unique_id (rows : list Device.t) (device : Device.t) :
  NoDup (List.map Device.id rows) -> In device rows ->
  List.filter (fun d => Device.id d =? Device.id device) rows = [device].
Proof.
  intros Hnd Hin.
  destruct (filter_at_most_one Device.id Z.eqb rows (Device.id device)
              Z.eqb_eq Hnd) as [[_ Hn]|(row & Hrow & Hkey & Hf)].
  - exfalso. apply Hn. apply List.in_map. exact Hin.
  - rewrite Hf. f_equal.
    exact (key_injective_on_rows Device.id rows row device Hnd Hrow Hin Hkey).
Qed.

Lemma device_key_eqb_eq (a b : UUID * string) :
  String.eqb (snd a) (snd b) && (fst a =? fst b) = true <-> a = b.
Proof.
  destruct a as [a1 a2], b as [b1 b2]. simpl.
  rewrite andb_true_iff, String.eqb_eq, Z.eqb_eq. split.
  - intros [-> ->]. reflexivity.
  - intros H. inversion H. auto.
Qed.

Lemma get_by_device_id_filter (rows : list Device.t) (device_id : string)
    (subscription_id : UUID) :
  List.filter
    (fun d => String.eqb (Device.device_id d) device_id
              && (Device.subscription_id d =? subscription_id)) rows
  = List.filter
      (fun d => String.eqb (snd (device_key d)) (snd (subscription_id, device_id))
                && (fst (device_key d) =? fst (subscription_id, device_id))) rows.
Proof. reflexivity. Qed.

(** On a [devices] table that satisfies its constraints,
    [get_by_device_id] never fails with more than one row: it returns the
    row of the subscription with the client device id, or [None] when there
    is none.  A device stored by [create] is found afterwards, both by its
    id and by its subscription and client device id. *)
Theorem device_lookup_on_consistent_table (db : Database) :
  devices_consistent db ->
  (forall device_id subscription_id,
      match DeviceRepository.get_by_device_id db device_id subscription_id with
      | Ok (Some d) =>
          In d (device_rows db) /\ Device.device_id d = device_id
          /\ Device.subscription_id d = subscription_id
      | Ok None =>
          forall d, In d (device_rows db) ->
                    ~ (Device.device_id d = device_id
                       /\ Device.subscription_id d = subscription_id)
      | Raise _ => False
      end)
  /\ (forall device created db',
        DeviceRepository.create db device = Ok (created, db') ->
        DeviceRepository.get_by_id db' (Device.id device) = Ok (Some device)
        /\ DeviceRepository.get_by_device_id db' (Device.device_id device)
             (Device.subscription_id device) = Ok (Some device)).
Proof.
  intros Hc. split.
  - intros device_id subscription_id. destruct Hc as (_ & N2 & _).
    unfold DeviceRepository.get_by_device_id. rewrite get_by_device_id_filter.
    destruct (filter_at_most_one device_key
                (fun a b => String.eqb (snd a) (snd b) && (fst a =? fst b))
                (device_rows db) (subscription_id, device_id)
                device_key_eqb_eq N2)
      as [[Hf Hn]|(row & Hin & Hkey & Hf)]; rewrite Hf; simpl.
    + intros d Hd [H1 H2]. apply Hn. apply List.in_map_iff. exists d.
      split; [|exact Hd]. unfold device_key. rewrite H1, H2. reflexivity.
    + unfold device_key in Hkey. inversion Hkey. auto.
  - intros device created db' Hcreate.
    pose proof (device_create_consistent _ _ _ _ Hcreate Hc) as (N1 & N2 & _).
    unfold DeviceRepository.create in Hcreate.
    destruct (DeviceRepository.insert_allowed db device); [|discriminate].
    inversion Hcreate; subst created db'. cbn [device_rows] in N1, N2.
    assert (Hin : In device (device_rows db ++ [device])).
    { apply List.in_or_app. right. left. reflexivity. }
    split.
    + unfold DeviceRepository.get_by_id. cbn [device_rows].
      rewrite (filter_unique_id _ _ N1 Hin). reflexivity.
    + unfold DeviceRepository.get_by_device_id. cbn [device_rows].
      rewrite get_by_device_id_filter.
      destruct (filter_at_most_one device_key
                  (fun a b => String.eqb (snd a) (snd b) && (fst a =? fst b))
                  (device_rows db ++ [device])
                  (Device.subscription_id device, Device.device_id device)
                  device_key_eqb_eq N2)
        as [[Hf Hn]|(row & Hrow & Hkey & Hf)].
      * exfalso. apply Hn. apply List.in_map_iff. exists device. auto.
      * rewrite Hf. simpl.
        rewrite (key_injective_on_rows device_key _ row device N2 Hrow Hin Hkey).
        reflexivity.
Qed.

Lemma device_lookup_on_consistent_table_demo :
  (forall device_id subscription_id,
      match DeviceRepository.get_by_device_id demo_bound_db device_id
              subscription_id with
      | Ok (Some d) =>
          In d (device_rows demo_bound_db) /\ Device.device_id d = device_id
          /\ Device.subscription_id d = subscription_id
      | Ok None =>
          forall d, In d (device_rows demo_bound_db) ->
                    ~ (Device.device_id d = device_id
                       /\ Device.subscription_id d = subscription_id)
      | Raise _ => False
      end)
  /\ (forall device created db',
        DeviceRepository.create demo_bound_db device = Ok (created, db') ->
        DeviceRepository.get_by_id db' (Device.id device) = Ok (Some device)
        /\ DeviceRepository.get_by_device_id db' (Device.device_id device)
             (Device.subscription_id device) = Ok (Some device)).
Proof.
  exact (device_lookup_on_consistent_table demo_bound_db demo_bound_db_consistent).
Defined.

Lemma filter_length_drop {A : Type} (p : A -> bool) (rows : list A) :
  (length (List.filter p rows) <= length rows)%nat
  /\ ((length (List.filter p rows) < length rows)%nat
      <-> exists x, In x rows /\ p x = false).
Proof.
  induction rows as [|x rest [IHle IHlt]]; simpl.
  - split; [lia|]. split; [lia|]. intros (x & [] & _).
  - destruct (p x) eqn:E; simpl.
    + split; [lia|]. rewrite <- Nat.succ_lt_mono, IHlt. split.
      * intros (y & Hy & Hp). exists y. auto.
      * intros (y & [->|Hy] & Hp); [congruence|]. exists y. auto.
    + split; [lia|]. split; [|lia]. intros _. exists x. auto.
Qed.

(** [DeviceRepository.delete] removes the row with the given id and reports
    whether there was one.  The table constraints still hold afterwards, the
    id is no longer found, every other row stays, and the deleted device can
    be stored again: its subscription and client device id are free. *)
Theorem device_delete_frees_key (db : Database) (device_id : UUID) :
  devices_consistent db ->
  devices_consistent (snd (DeviceRepository.delete db device_id))
  /\ (fst (DeviceRepository.delete db device_id) = true
      <-> In device_id (List.map Device.id (device_rows db)))
  /\ DeviceRepository.get_by_id (snd (DeviceRepository.delete db device_id)) device_id
     = Ok None
  /\ (forall d, In d (device_rows db) -> Device.id d <> device_id ->
                In d (device_rows (snd (DeviceRepository.delete db device_id))))
  /\ (forall d, In d (device_rows db) -> Device.id d = device_id ->
                exists db',
                  DeviceRepository.create
                    (snd (DeviceRepository.delete db device_id)) d
                  = Ok (d, db')).
Proof.
  intros (N1 & N2 & F). unfold DeviceRepository.delete. cbn [fst snd].
  set (remaining :=
         List.filter (fun d => negb (Device.id d =? device_id)) (device_rows db)).
  assert (Hsub : forall d, In d remaining ->
                           In d (device_rows db) /\ Device.id d <> device_id).
  { intros d Hd. apply List.filter_In in Hd. destruct Hd as [Hd Hp].
    split; [exact Hd|]. apply negb_true_iff, Z.eqb_neq in Hp. exact Hp. }
  assert (Hgone : ~ In device_id (List.map Device.id remaining)).
  { intros H. apply List.in_map_iff in H. destruct H as (d & Hid & Hd).
    apply Hsub in Hd. tauto. }
  split; [|split; [|split; [|split]]].
  - unfold devices_consistent. cbn [device_rows subscriptions].
    split; [apply NoDup_map_filter; exact N1|].
    split; [apply NoDup_map_filter; exact N2|].
    intros d Hd. apply F. apply Hsub. exact Hd.
  - destruct (filter_length_drop (fun d => negb (Device.id d =? device_id))
                (device_rows db)) as [Hle Hlt].
    fold remaining in Hle, Hlt. rewrite Z.gtb_ltb, Z.ltb_lt. split.
    + intros H. assert (Hl : (length remaining < length (device_rows db))%nat) by lia.
      apply Hlt in Hl. destruct Hl as (d & Hd & Hp).
      apply negb_false_iff, Z.eqb_eq in Hp. rewrite <- Hp.
      apply List.in_map. exact Hd.
    + intros H. apply List.in_map_iff in H. destruct H as (d & Hid & Hd).
      assert (Hl : (length remaining < length (device_rows db))%nat).
      { apply Hlt. exists d. split; [exact Hd|].
        apply negb_false_iff, Z.eqb_eq. exact Hid. }
      lia.
  - unfold DeviceRepository.get_by_id. cbn [device_rows].
    rewrite (filter_none_key Device.id Z.eqb remaining device_id Z.eqb_eq Hgone).
    reflexivity.
  - intros d Hd Hne. apply List.filter_In. split; [exact Hd|].
    apply negb_true_iff, Z.eqb_neq. exact Hne.
  - intros d Hd Hid. unfold DeviceRepository.create.
    assert (Hallowed : DeviceRepository.insert_allowed
                         (mkDatabase (subscriptions db) remaining) d = true).
    { apply insert_allowed_iff. cbn [device_rows subscriptions].
      split; [rewrite Hid; exact Hgone|]. split; [apply F; exact Hd|].
      intros H. apply List.in_map_iff in H. destruct H as (r & Hkey & Hr).
      apply Hsub in Hr. destruct Hr as [Hr Hne].
      apply Hne. rewrite <- Hid. f_equal.
      exact (key_injective_on_rows device_key _ r d N2 Hr Hd Hkey). }
    rewrite Hallowed. eexists. reflexivity.
Qed.

Lemma device_delete_frees_key_demo :
  devices_consistent (snd (DeviceRepository.delete demo_bound_db 3003))
  /\ (fst (DeviceRepository.delete demo_bound_db 3003) = true
      <-> In 3003 (List.map Device.id (device_rows demo_bound_db)))
  /\ DeviceRepository.get_by_id (snd (DeviceRepository.delete demo_bound_db 3003)) 3003
     = Ok None
  /\ (forall d, In d (device_rows demo_bound_db) -> Device.id d <> 3003 ->
                In d (device_rows (snd (DeviceRepository.delete demo_bound_db 3003))))
  /\ (forall d, In d (device_rows demo_bound_db) -> Device.id d = 3003 ->
                exists db',
                  DeviceRepository.create
                    (snd (DeviceRepository.delete demo_bound_db 3003)) d
                  = Ok (d, db')).
Proof.
  exact (device_delete_frees_key demo_bound_db 3003 demo_bound_db_consistent).
Defined.

(** ** Subscriptions that expire soon *)








